(** * ElasticDelayBuffer: a shallow embedding of [ff_buffers_ElasticDelayBuffer.h]

    The class [ElasticDelayBuffer<SampleType>] keeps a multi-channel ring of
    samples, a write and a read cursor, an atomic snapshot of the buffered
    delay and one fractional resampler per channel.  The embedding follows
    the header member by member:

    - C++ [int] values are integers of [Z]; signed overflow is undefined in
      C++, so the model describes the executions that stay in range;
    - C++ [double] values are binary64 floats ([PrimFloat.float]);
    - [juce::AudioBuffer] and [CircularLagrangeInterpolator] are not part of
      the sources: the former is modelled by lists of channels, the latter is
      an interface the development is parametric in;
    - an operation that would touch memory outside a buffer, index the
      resampler array out of range or divide by zero has no defined result
      and is modelled by [None]. *)

From Stdlib Require Import ZArith Floats Lia Bool.
From stdpp Require Import base option list.

Set Warnings "-inexact-float".

Local Open Scope Z_scope.

(** ** Binary64 comparisons *)

Module F64.

Definition t := PrimFloat.float.

Definition ltb (x y : t) : bool := PrimFloat.ltb x y.
Definition leb (x y : t) : bool := PrimFloat.leb x y.
Definition is_nan (x : t) : bool := PrimFloat.is_nan x.

(** Conversion of a C++ [int] to [double]: exact for every 32-bit value. *)
Definition of_int (z : Z) : t :=
  if z <? 0 then PrimFloat.opp (PrimFloat.of_uint63 (Uint63.of_Z (- z)))
  else PrimFloat.of_uint63 (Uint63.of_Z z).

End F64.

(** ** Samples: the template parameter [SampleType] *)

Class SampleOps (T : Type) := {
  s_zero : T;
  s_add : T -> T -> T;
  s_mul : T -> T -> T
}.

#[export] Instance float_SampleOps : SampleOps PrimFloat.float := {
  s_zero := 0%float;
  s_add := PrimFloat.add;
  s_mul := PrimFloat.mul
}.

#[export] Instance Z_SampleOps : SampleOps Z := {
  s_zero := 0;
  s_add := Z.add;
  s_mul := Z.mul
}.

(** Indexing a channel with a C++ [int]. *)
Definition zget {T} (l : list T) (i : Z) : option T :=
  if i <? 0 then None else l !! Z.to_nat i.


(** The body of [for (int i = 0; i < n; ++i)] run [count] times from [i]. *)
Fixpoint for_loop {S : Type} (count : nat) (i : Z)
    (body : Z -> S -> option S) (s : S) : option S :=
  match count with
  | O => Some s
  | S k => s' ← body i s; for_loop k (i + 1) body s'
  end.

Definition for_range {S : Type} (n : Z) (body : Z -> S -> option S) (s : S)
    : option S :=
  for_loop (Z.to_nat n) 0 body s.

(** ** The sample container *)

Section AudioBuffer.
Context {T : Type} `{SampleOps T}.

(** Modelled from the spec: [juce::AudioBuffer] is the "multi-channel sample
    container" the class consumes; its sources are not part of the module.
    A buffer is its sample count and one list of samples per channel. *)
Record AudioBuffer := {
  ab_size : Z;
  ab_channels : list (list T)
}.

Definition getNumSamples (b : AudioBuffer) : Z := ab_size b.
Definition getNumChannels (b : AudioBuffer) : Z :=
  Z.of_nat (length (ab_channels b)).

(** Every channel owns exactly [getNumSamples] samples. *)
Definition wf_buffer (b : AudioBuffer) : Prop :=
  0 <= ab_size b /\
  Forall (fun c => length c = Z.to_nat (ab_size b)) (ab_channels b).

Definition emptyBuffer : AudioBuffer := {| ab_size := 0; ab_channels := [] |}.

Definition zeros (n : Z) : list T := replicate (Z.to_nat n) s_zero.

(** Modelled from the spec: [setSize (channels, samples, false, true)]
    "reallocate[s] storage to [samples] capacity per channel"; with
    [keepExistingContent = false] and [clearExtraSpace = true] a buffer whose
    dimensions change is allocated afresh and zeroed, an unchanged one is left
    alone. *)
Definition ab_setSize (b : AudioBuffer) (nc ns : Z) : AudioBuffer :=
  if bool_decide (nc = getNumChannels b /\ ns = getNumSamples b) then b
  else {| ab_size := ns; ab_channels := replicate (Z.to_nat nc) (zeros ns) |}.

(** Modelled from the spec: [clear()] zeroes every stored sample. *)
Definition ab_clear (b : AudioBuffer) : AudioBuffer :=
  {| ab_size := ab_size b;
     ab_channels := (fun _ => zeros (ab_size b)) <$> ab_channels b |}.

(** [getReadPointer (channel, offset)]: the samples of a channel from
    [offset] on. *)
Definition getReadPointer (b : AudioBuffer) (channel offset : Z)
    : option (list T) :=
  if bool_decide (0 <= channel /\ 0 <= offset) then
    ch ← ab_channels b !! Z.to_nat channel;
    Some (drop (Z.to_nat offset) ch)
  else None.

(** Overwrite [num] samples of [d] from [start] on, each with [f old src]. *)
Definition write_range (f : T -> T -> T) (d : list T) (start : Z)
    (src : list T) (num : Z) : option (list T) :=
  if bool_decide (0 <= start /\ 0 <= num /\
                  start + num <= Z.of_nat (length d) /\
                  num <= Z.of_nat (length src)) then
    Some (take (Z.to_nat start) d
          ++ zip_with f (take (Z.to_nat num) (drop (Z.to_nat start) d))
                        (take (Z.to_nat num) src)
          ++ drop (Z.to_nat (start + num)) d)
  else None.

(** Apply a channel transformer to channel [i] of a buffer. *)
Definition on_channel (i : Z) (g : list T -> option (list T))
    (b : AudioBuffer) : option AudioBuffer :=
  if bool_decide (0 <= i) then
    ch ← ab_channels b !! Z.to_nat i;
    ch' ← g ch;
    Some {| ab_size := ab_size b;
            ab_channels := <[Z.to_nat i := ch']> (ab_channels b) |}
  else None.

(** Modelled from the spec: [copyFrom (channel, start, source, num, gain)]
    copies [num] samples "scaled by gain" into the channel. *)
Definition copyFrom (b : AudioBuffer) (destChannel destStart : Z)
    (src : list T) (num : Z) (gain : T) : option AudioBuffer :=
  on_channel destChannel
    (fun d => write_range (fun _ x => s_mul x gain) d destStart src num) b.

(** Modelled from the spec: [addFrom (channel, start, source, num, gain)]
    "adds gain-scaled samples into" the channel. *)
Definition addFrom (b : AudioBuffer) (destChannel destStart : Z)
    (src : list T) (num : Z) (gain : T) : option AudioBuffer :=
  on_channel destChannel
    (fun d => write_range (fun o x => s_add o (s_mul x gain)) d destStart src num) b.

End AudioBuffer.

Arguments AudioBuffer T : clear implicits.

(** ** The fractional resampler *)

(** [CircularLagrangeInterpolator] is not part of the sources.  The class
    only constructs, resets and runs it, so the development is parametric in
    these three operations.  [interp_process r factor ring offset out n
    available wrap] stands for
    [r->process (factor, ring + offset, out, n, available, wrap)]: it yields
    the resampler's new history, the output channel after the call and the
    number of source samples consumed. *)
Class Interpolator (T R : Type) := {
  interp_new : R;
  interp_reset : R -> R;
  interp_process :
    R -> F64.t -> list T -> Z -> list T -> Z -> Z -> Z -> R * list T * Z
}.

(** ** The class [ElasticDelayBuffer] *)

Section ElasticDelayBuffer.
Context {T R : Type} `{SampleOps T} `{Interpolator T R}.

Record ElasticDelayBuffer := {
  buffer : AudioBuffer T;
  resamplers : list R;
  writePosition : Z;
  readPosition : Z;
  numDelaySamples : Z;
  maxResamplingFactor : F64.t
}.

(** The state after the (empty) constructor.  [numDelaySamples] has no
    initialiser in the class, [d0] is whatever it holds. *)
Definition newElasticDelayBuffer (d0 : Z) : ElasticDelayBuffer :=
  {| buffer := emptyBuffer;
     resamplers := [];
     writePosition := 0;
     readPosition := 0;
     numDelaySamples := d0;
     maxResamplingFactor := 8%float |}.

Definition set_buffer (b : AudioBuffer T) (s : ElasticDelayBuffer) :=
  {| buffer := b;
     resamplers := resamplers s;
     writePosition := writePosition s;
     readPosition := readPosition s;
     numDelaySamples := numDelaySamples s;
     maxResamplingFactor := maxResamplingFactor s |}.

Definition set_resamplers (rs : list R) (s : ElasticDelayBuffer) :=
  {| buffer := buffer s;
     resamplers := rs;
     writePosition := writePosition s;
     readPosition := readPosition s;
     numDelaySamples := numDelaySamples s;
     maxResamplingFactor := maxResamplingFactor s |}.

Definition set_writePosition (w : Z) (s : ElasticDelayBuffer) :=
  {| buffer := buffer s;
     resamplers := resamplers s;
     writePosition := w;
     readPosition := readPosition s;
     numDelaySamples := numDelaySamples s;
     maxResamplingFactor := maxResamplingFactor s |}.

Definition set_readPosition (r : Z) (s : ElasticDelayBuffer) :=
  {| buffer := buffer s;
     resamplers := resamplers s;
     writePosition := writePosition s;
     readPosition := r;
     numDelaySamples := numDelaySamples s;
     maxResamplingFactor := maxResamplingFactor s |}.

Definition set_numDelaySamples (d : Z) (s : ElasticDelayBuffer) :=
  {| buffer := buffer s;
     resamplers := resamplers s;
     writePosition := writePosition s;
     readPosition := readPosition s;
     numDelaySamples := d;
     maxResamplingFactor := maxResamplingFactor s |}.

(** The ring capacity [N]. *)
Definition capacity (s : ElasticDelayBuffer) : Z := getNumSamples (buffer s).

(** [(writePosition < readPosition) ? writePosition + N - readPosition
                                    : writePosition - readPosition] *)
Definition delayOf (w r n : Z) : Z := if w <? r then w + n - r else w - r.

Definition updateActualSampleDelay (s : ElasticDelayBuffer) : ElasticDelayBuffer :=
  set_numDelaySamples (delayOf (writePosition s) (readPosition s) (capacity s)) s.

Definition getActualSampleDelay (s : ElasticDelayBuffer) : Z := numDelaySamples s.

(** [reset] (lines 73-77). *)
Definition reset (s : ElasticDelayBuffer) : ElasticDelayBuffer :=
  set_resamplers (interp_reset <$> resamplers s) s.

Definition setMaxResamplingFactor (s : ElasticDelayBuffer) (factor : F64.t)
    : ElasticDelayBuffer :=
  {| buffer := buffer s;
     resamplers := resamplers s;
     writePosition := writePosition s;
     readPosition := readPosition s;
     numDelaySamples := numDelaySamples s;
     maxResamplingFactor := factor |}.

(** [while (resamplers.size() < numChannels) resamplers.add (new ...)],
    given the number of rounds the loop makes. *)
Fixpoint add_resamplers (rounds : nat) (rs : list R) : list R :=
  match rounds with
  | O => rs
  | S k => add_resamplers k (rs ++ [interp_new])
  end.

(** [while (resamplers.size() > numChannels) resamplers.removeLast()]. *)
Fixpoint remove_resamplers (rounds : nat) (rs : list R) : list R :=
  match rounds with
  | O => rs
  | S k => remove_resamplers k (removelast rs)
  end.

Definition resize_pool (numChannels : Z) (rs : list R) : list R :=
  let grown := add_resamplers (Z.to_nat numChannels - length rs)%nat rs in
  remove_resamplers (length grown - Z.to_nat numChannels)%nat grown.

(** [setSize] (lines 31-48).  A negative channel or sample count is outside
    the container's contract (and the shrinking loop would not end). *)
Definition setSize (s : ElasticDelayBuffer) (numChannels numSamples : Z)
    (sampleRate : F64.t) : option ElasticDelayBuffer :=
  if bool_decide (0 <= numChannels /\ 0 <= numSamples) then
    let s1 := set_buffer (ab_setSize (buffer s) numChannels numSamples) s in
    let s2 := set_resamplers (resize_pool numChannels (resamplers s1)) s1 in
    let s3 :=
      if numSamples <=? writePosition s2 then
        let s4 := set_writePosition 0 s2 in
        let s5 := set_buffer (ab_clear (buffer s4)) s4 in
        set_resamplers (interp_reset <$> resamplers s5) s5
      else s2 in
    Some (updateActualSampleDelay s3)
  else None.

(** [setNumSamplesDelay] (lines 50-57); the [jassert] is part of
    [call_pre]. *)
Definition setNumSamplesDelay (s : ElasticDelayBuffer) (delay : Z)
    : ElasticDelayBuffer :=
  let assumedRead := writePosition s - delay in
  let s1 :=
    set_readPosition
      (if assumedRead <? 0 then assumedRead + capacity s else assumedRead) s in
  updateActualSampleDelay (reset s1).

(** [pushBlock] (lines 79-100): both branches loop over the channels of the
    ring. *)
Definition pushBlock (s : ElasticDelayBuffer) (inputBuffer : AudioBuffer T)
    (numSamples : Z) (gain : T) : option ElasticDelayBuffer :=
  let available := capacity s - (writePosition s + numSamples) in
  if 0 <=? available then
    b ← for_range (getNumChannels (buffer s))
          (fun i b =>
             src ← getReadPointer inputBuffer i 0;
             copyFrom b i (writePosition s) src numSamples gain)
          (buffer s);
    Some (updateActualSampleDelay
            (set_writePosition (writePosition s + numSamples) (set_buffer b s)))
  else
    b ← for_range (getNumChannels (buffer s))
          (fun i b =>
             src ← getReadPointer inputBuffer i 0;
             b1 ← copyFrom b i (writePosition s) src (numSamples + available) gain;
             src2 ← getReadPointer inputBuffer i (numSamples + available);
             copyFrom b1 i 0 src2 (- available) gain)
          (buffer s);
    Some (updateActualSampleDelay
            (set_writePosition (- available) (set_buffer b s))).

(** [addToPushedBlock] (lines 102-121). *)
Definition addToPushedBlock (s : ElasticDelayBuffer)
    (inputBuffer : AudioBuffer T) (numSamples : Z) (gain : T)
    : option ElasticDelayBuffer :=
  let previousWrite := writePosition s - numSamples in
  let previousWrite :=
    if previousWrite <? 0 then previousWrite + capacity s else previousWrite in
  let available := capacity s - (previousWrite + numSamples) in
  if 0 <=? available then
    b ← for_range (getNumChannels (buffer s))
          (fun i b =>
             src ← getReadPointer inputBuffer i 0;
             addFrom b i previousWrite src numSamples gain)
          (buffer s);
    Some (set_buffer b s)
  else
    b ← for_range (getNumChannels (buffer s))
          (fun i b =>
             src ← getReadPointer inputBuffer i 0;
             b1 ← addFrom b i previousWrite src (numSamples + available) gain;
             src2 ← getReadPointer inputBuffer i (numSamples + available);
             addFrom b1 i 0 src2 (- available) gain)
          (buffer s);
    Some (set_buffer b s).

(** The first two statements of [pullBlock] (lines 129-130). *)
Definition currentDelay (s : ElasticDelayBuffer) : Z :=
  let d := writePosition s - readPosition s in
  if d <? 0 then d + capacity s else d.

(** [1.0 + (difference / (numSamples * 8.0))] in binary64 (lines 132-133). *)
Definition rawFactor (s : ElasticDelayBuffer) (numSamples delayTime : Z) : F64.t :=
  let difference := F64.of_int ((currentDelay s - numSamples) - delayTime) in
  (1 + difference / (F64.of_int numSamples * 8))%float.

Definition minFactor : F64.t := 0.0001%float.

(** The two [if] statements that follow (lines 134-137); [a > b] is
    [b < a]. *)
Definition clampFactor (maxFactor factor : F64.t) : F64.t :=
  let factor := if F64.ltb factor minFactor then minFactor else factor in
  if F64.ltb maxFactor factor then maxFactor else factor.

Definition pullFactor (s : ElasticDelayBuffer) (numSamples delayTime : Z) : F64.t :=
  clampFactor (maxResamplingFactor s) (rawFactor s numSamples delayTime).

(** One round of the channel loop of [pullBlock]; the loop state is the
    resampler pool, the output buffer and the local [used]. *)
Definition pull_channel (s : ElasticDelayBuffer) (factor : F64.t)
    (numSamples : Z) (channel : Z) (st : list R * AudioBuffer T * Z)
    : option (list R * AudioBuffer T * Z) :=
  let '(rs, out, _) := st in
  if bool_decide (0 <= channel) then
    r ← rs !! Z.to_nat channel;
    ring ← ab_channels (buffer s) !! Z.to_nat channel;
    o ← ab_channels out !! Z.to_nat channel;
    let '(r', o', used) :=
      interp_process r factor ring (readPosition s) o numSamples
                     (capacity s - readPosition s) (capacity s) in
    Some (<[Z.to_nat channel := r']> rs,
          {| ab_size := ab_size out;
             ab_channels := <[Z.to_nat channel := o']> (ab_channels out) |},
          used)
  else None.

(** [pullBlock] (lines 123-150); [%] is the truncating remainder, undefined
    for a zero divisor. *)
Definition pullBlock (s : ElasticDelayBuffer) (outputBuffer : AudioBuffer T)
    (numSamples delayTime : Z) : option (ElasticDelayBuffer * AudioBuffer T) :=
  let factor := pullFactor s numSamples delayTime in
  '(rs, out, used) ← for_range (getNumChannels outputBuffer)
                       (pull_channel s factor numSamples)
                       (resamplers s, outputBuffer, 0);
  if bool_decide (capacity s = 0) then None
  else
    let s1 := set_resamplers rs s in
    let s2 := set_readPosition (Z.rem (readPosition s1 + used) (capacity s1)) s1 in
    Some (updateActualSampleDelay s2, out).

(** *** Calls, their documented preconditions, reachable states *)

Inductive Call :=
| CallSetSize (numChannels numSamples : Z) (sampleRate : F64.t)
| CallSetNumSamplesDelay (delay : Z)
| CallSetMaxResamplingFactor (factor : F64.t)
| CallReset
| CallPushBlock (inputBuffer : AudioBuffer T) (numSamples : Z) (gain : T)
| CallAddToPushedBlock (inputBuffer : AudioBuffer T) (numSamples : Z) (gain : T)
| CallPullBlock (outputBuffer : AudioBuffer T) (numSamples delayTime : Z).

Definition exec (s : ElasticDelayBuffer) (c : Call) : option ElasticDelayBuffer :=
  match c with
  | CallSetSize nc ns sr => setSize s nc ns sr
  | CallSetNumSamplesDelay d => Some (setNumSamplesDelay s d)
  | CallSetMaxResamplingFactor f => Some (setMaxResamplingFactor s f)
  | CallReset => Some (reset s)
  | CallPushBlock input n g => pushBlock s input n g
  | CallAddToPushedBlock input n g => addToPushedBlock s input n g
  | CallPullBlock out n dt => fst <$> pullBlock s out n dt
  end.

(** A caller's block: a well-formed buffer holding at least [numSamples]
    samples per channel. *)
Definition block_ok (b : AudioBuffer T) (numSamples : Z) : Prop :=
  wf_buffer b /\ 0 <= numSamples <= getNumSamples b.

(** The [jassert]s of each member, with the container's own contract on
    sizes and sample counts. *)
Definition call_pre (s : ElasticDelayBuffer) (c : Call) : Prop :=
  match c with
  | CallSetSize nc ns _ => 0 <= nc /\ 0 <= ns
  | CallSetNumSamplesDelay d => 0 <= d < capacity s
  | CallSetMaxResamplingFactor _ => True
  | CallReset => True
  | CallPushBlock input n _ | CallAddToPushedBlock input n _ =>
      capacity s > n /\
      getNumChannels (buffer s) = getNumChannels input /\
      block_ok input n
  | CallPullBlock out n _ =>
      capacity s > getNumSamples out /\
      getNumChannels (buffer s) = getNumChannels out /\
      getNumChannels (buffer s) = Z.of_nat (length (resamplers s)) /\
      block_ok out n
  end.

Fixpoint run (s : ElasticDelayBuffer) (cs : list Call) : option ElasticDelayBuffer :=
  match cs with
  | [] => Some s
  | c :: cs' => s' ← exec s c; run s' cs'
  end.

Inductive reachable : ElasticDelayBuffer -> Prop :=
| reachable_new d0 : reachable (newElasticDelayBuffer d0)
| reachable_call s c s' :
    reachable s -> call_pre s c -> exec s c = Some s' -> reachable s'.

(** Every call of a run meets its precondition in the state it is made
    in. *)
Fixpoint pre_run (s : ElasticDelayBuffer) (cs : list Call) : Prop :=
  match cs with
  | [] => True
  | c :: cs' =>
      call_pre s c /\
      match exec s c with
      | Some s' => pre_run s' cs'
      | None => False
      end
  end.

(** The invariant of the data model: [0 <= writePos, readPos < N]. *)
Definition cursors_in_range (s : ElasticDelayBuffer) : Prop :=
  0 <= writePosition s < capacity s /\ 0 <= readPosition s < capacity s.

(** What the members do maintain. *)
Definition shape_ok (s : ElasticDelayBuffer) : Prop :=
  wf_buffer (buffer s) /\
  getNumChannels (buffer s) = Z.of_nat (length (resamplers s)) /\
  0 <= writePosition s <= capacity s.

(** In channel [ring'] the [n] samples from [start] on, wrapping at [cap],
    are [f old src] and every other sample is the one of [ring]. *)
Definition ring_written (f : T -> T -> T) (cap start n : Z)
    (src ring ring' : list T) : Prop :=
  length ring' = length ring /\
  (forall k, 0 <= k < n ->
     exists o x, zget ring ((start + k) mod cap) = Some o /\
                 zget src k = Some x /\
                 zget ring' ((start + k) mod cap) = Some (f o x)) /\
  (forall j, 0 <= j < cap ->
     (forall k, 0 <= k < n -> j <> (start + k) mod cap) ->
     zget ring' j = zget ring j).

(** The write of [n] samples at [p] with wrap-around, on one channel: what
    either branch of [pushBlock] and [addToPushedBlock] does to it. *)
Definition wrap_write (f : T -> T -> T) (cap p : Z) (src : list T) (n : Z)
    (d : list T) : option (list T) :=
  let available := cap - (p + n) in
  if 0 <=? available then write_range f d p src n
  else
    d1 ← write_range f d p src (n + available);
    write_range f d1 0 (drop (Z.to_nat (n + available)) src) (- available).

(** What the loop body of either branch does to channel [i], reading the
    caller's channel [i]. *)
Definition block_write (f : T -> T -> T) (input : AudioBuffer T)
    (cap p n : Z) (i : Z) (d : list T) : option (list T) :=
  src ← getReadPointer input i 0;
  wrap_write f cap p src n d.

(** The call [resamplers[c]->process (...)] that [pullBlock] makes for
    channel [c] when the factor is [factor]. *)
Definition process_call (s : ElasticDelayBuffer) (factor : F64.t)
    (numSamples : Z) (r : R) (ring o : list T) : R * list T * Z :=
  interp_process r factor ring (readPosition s) o numSamples
                 (capacity s - readPosition s) (capacity s).

(** Every channel of [out] was produced, and every resampler advanced, by
    one [process] call with the factor [factor] on the state [s]. *)
Definition runs_with (s : ElasticDelayBuffer) (out : AudioBuffer T)
    (numSamples : Z) (factor : F64.t)
    (s' : ElasticDelayBuffer) (out' : AudioBuffer T) : Prop :=
  forall c : nat, (c < length (ab_channels out))%nat ->
    exists r ring o,
      resamplers s !! c = Some r /\
      ab_channels (buffer s) !! c = Some ring /\
      ab_channels out !! c = Some o /\
      resamplers s' !! c = Some (process_call s factor numSamples r ring o).1.1 /\
      ab_channels out' !! c = Some (process_call s factor numSamples r ring o).1.2.

(** The consumed count [used] after the channel loop: the one the last
    channel's resampler returned. *)
Definition last_used (s : ElasticDelayBuffer) (out : AudioBuffer T)
    (numSamples : Z) (factor : F64.t) (used : Z) : Prop :=
  exists r ring o,
    resamplers s !! (length (ab_channels out) - 1)%nat = Some r /\
    ab_channels (buffer s) !! (length (ab_channels out) - 1)%nat = Some ring /\
    ab_channels out !! (length (ab_channels out) - 1)%nat = Some o /\
    used = (process_call s factor numSamples r ring o).2.

(** [std::max] and [std::min] on doubles, for the clamp written as
    [min (max (f, 0.0001), maxResamplingFactor)]. *)
Definition std_max (a b : F64.t) : F64.t := if F64.ltb a b then b else a.
Definition std_min (a b : F64.t) : F64.t := if F64.ltb b a then b else a.

(** The delay snapshot agrees with the cursors. *)
Definition delay_consistent (s : ElasticDelayBuffer) : Prop :=
  numDelaySamples s
  = delayOf (writePosition s) (readPosition s) (capacity s).

(** The members that end with [updateActualSampleDelay()]. *)
Definition recomputes_delay (c : Call) : bool :=
  match c with
  | CallSetSize _ _ _ | CallSetNumSamplesDelay _
  | CallPushBlock _ _ _ | CallPullBlock _ _ _ => true
  | CallSetMaxResamplingFactor _ | CallReset
  | CallAddToPushedBlock _ _ _ => false
  end.

(** The pool the two loops of [setSize] leave: the first [numChannels]
    resamplers, followed by new ones when there were fewer. *)
Definition pool_for (numChannels : Z) (rs : list R) : list R :=
  take (Z.to_nat numChannels) rs
  ++ replicate (Z.to_nat numChannels - length rs)%nat interp_new.

End ElasticDelayBuffer.

Arguments ElasticDelayBuffer T R : clear implicits.

(** ** A stand-in resampler for closed examples

    It counts its calls since the last reset, copies [n] ring samples from
    the read position on to the output and reports one sample fewer or more
    than [n] as consumed when the factor is below or above one. *)
#[export] Instance stepInterpolator {T : Type} : Interpolator T nat := {
  interp_new := O;
  interp_reset := fun _ => O;
  interp_process := fun r factor ring offset out n available wrap =>
    (S r,
     take (Z.to_nat n) (rotate (Z.to_nat offset) ring) ++ drop (Z.to_nat n) out,
     if F64.ltb factor 1%float then n - 1
     else if F64.ltb 1%float factor then n + 1 else n)
}.

Definition EDBf : Type := ElasticDelayBuffer PrimFloat.float nat.

(** A mono ring of eight samples after [setSize (1, 8, 44100)]. *)
Definition ring8 : option EDBf :=
  setSize (newElasticDelayBuffer 0) 1 8 44100%float.

Definition ramp4 : AudioBuffer PrimFloat.float :=
  {| ab_size := 4; ab_channels := [[1; 2; 3; 4]%float] |}.

Definition silence4 : AudioBuffer PrimFloat.float :=
  {| ab_size := 4; ab_channels := [[0; 0; 0; 0]%float] |}.

(** Call sequences from a fresh buffer, used for the closed examples. *)
Definition fresh : EDBf := newElasticDelayBuffer 0.

Definition after (cs : list (@Call PrimFloat.float)) : EDBf :=
  default fresh (run fresh cs).

(** Capacity 8, write cursor 4, read cursor 0. *)
Definition calls_w4 : list (@Call PrimFloat.float) :=
  [CallSetSize 1 8 44100%float; CallPushBlock ramp4 4 1%float].

(** Capacity 8, write cursor 6, read cursor 5. *)
Definition calls_w6_r5 : list (@Call PrimFloat.float) :=
  [CallSetSize 1 8 44100%float; CallPushBlock ramp4 4 1%float;
   CallPushBlock ramp4 2 1%float; CallSetNumSamplesDelay 1].

(** Capacity 8, write cursor 2, read cursor 6. *)
Definition calls_w2_r6 : list (@Call PrimFloat.float) :=
  [CallSetSize 1 8 44100%float; CallPushBlock ramp4 4 1%float;
   CallPushBlock ramp4 2 1%float; CallSetNumSamplesDelay 0;
   CallPushBlock ramp4 4 1%float].

(** As [calls_w4], with an upper bound of [0.00001] on the factor. *)
Definition calls_low_max : list (@Call PrimFloat.float) :=
  [CallSetSize 1 8 44100%float; CallPushBlock ramp4 4 1%float;
   CallSetMaxResamplingFactor 0.00001%float].

(** As [calls_w4], followed by a second push of four samples. *)
Definition calls_w8 : list (@Call PrimFloat.float) :=
  [CallSetSize 1 8 44100%float; CallPushBlock ramp4 4 1%float;
   CallPushBlock ramp4 4 1%float].

Definition ramp4_twice : AudioBuffer PrimFloat.float :=
  {| ab_size := 4; ab_channels := [[10; 20; 30; 40]%float] |}.

(** As [calls_w2_r6], followed by a push of four samples that ends at
    write cursor 6. *)
Definition calls_w6_wrapped : list (@Call PrimFloat.float) :=
  [CallSetSize 1 8 44100%float; CallPushBlock ramp4 4 1%float;
   CallPushBlock ramp4 2 1%float; CallSetNumSamplesDelay 0;
   CallPushBlock ramp4 4 1%float; CallPushBlock ramp4 4 1%float].

Definition ramp5 : AudioBuffer PrimFloat.float :=
  {| ab_size := 5; ab_channels := [[1; 2; 3; 4; 5]%float] |}.

(** Capacity 8, both cursors at 4: nothing buffered. *)
Definition calls_w4_r4 : list (@Call PrimFloat.float) :=
  [CallSetSize 1 8 44100%float; CallPushBlock ramp4 4 1%float;
   CallSetNumSamplesDelay 0].

(** * Properties *)

(** ** Binary64 order *)

Module F64Facts.

Import F64.

Lemma SFcompare_swap x y c :
  SFcompare x y = Some c -> SFcompare y x = Some (CompOpp c).
Proof.
  destruct x as [sx| sx| |sx mx ex], y as [sy| sy| |sy my ey]; simpl;
    try discriminate;
    try (intros [= <-]; try destruct sx; try destruct sy; reflexivity).
  intros [= <-]. f_equal.
  destruct sx, sy; try reflexivity;
    rewrite (Z.compare_antisym ex ey);
    destruct (ex ?= ey)%Z; simpl; try reflexivity;
    change (Pos.compare_cont Eq my mx) with (Pos.compare my mx);
    change (Pos.compare_cont Eq mx my) with (Pos.compare mx my);
    rewrite (Pos.compare_antisym mx my); reflexivity.
Qed.

Lemma SFcompare_diag x : SFcompare x x = None \/ SFcompare x x = Some Eq.
Proof.
  destruct x as [sx| sx| |sx mx ex]; simpl; auto.
  - right. destruct sx; reflexivity.
  - right. f_equal. rewrite Z.compare_refl.
    change (Pos.compare_cont Eq mx mx) with (Pos.compare mx mx).
    rewrite Pos.compare_refl. destruct sx; reflexivity.
Qed.

Lemma SFcompare_None x y :
  SFcompare x y = None -> SFcompare x x = None \/ SFcompare y y = None.
Proof.
  destruct x as [sx| sx| |sx mx ex], y as [sy| sy| |sy my ey]; simpl;
    try discriminate; auto.
Qed.

Lemma SFcompare_nan_l x y : SFcompare x x = None -> SFcompare x y = None.
Proof.
  destruct x as [sx| sx| |sx mx ex]; simpl; try discriminate; auto.
Qed.

Lemma SFcompare_nan_r x y : SFcompare y y = None -> SFcompare x y = None.
Proof.
  destruct y as [sy| sy| |sy my ey]; simpl; try discriminate;
    destruct x; auto.
Qed.

Lemma is_nan_false x :
  is_nan x = false <-> SFcompare (Prim2SF x) (Prim2SF x) = Some Eq.
Proof.
  unfold is_nan, PrimFloat.is_nan. rewrite FloatAxioms.eqb_spec. unfold SFeqb.
  destruct (SFcompare_diag (Prim2SF x)) as [E|E]; rewrite E; simpl;
    split; congruence.
Qed.

(** [a < a] never holds, also for NaN. *)
Lemma ltb_irrefl x : ltb x x = false.
Proof.
  unfold ltb. rewrite FloatAxioms.ltb_spec. unfold SFltb.
  destruct (SFcompare_diag (Prim2SF x)) as [E|E]; rewrite E; reflexivity.
Qed.

Lemma leb_refl x : is_nan x = false -> leb x x = true.
Proof.
  intros Hx. apply is_nan_false in Hx.
  unfold leb. rewrite FloatAxioms.leb_spec. unfold SFleb. rewrite Hx. reflexivity.
Qed.

(** On numbers the order is total. *)
Lemma ltb_false_leb x y :
  is_nan x = false -> is_nan y = false -> ltb x y = false -> leb y x = true.
Proof.
  intros Hx Hy. apply is_nan_false in Hx. apply is_nan_false in Hy.
  unfold ltb, leb. rewrite FloatAxioms.ltb_spec, FloatAxioms.leb_spec. unfold SFltb, SFleb.
  destruct (SFcompare (Prim2SF x) (Prim2SF y)) as [c|] eqn:E.
  - rewrite (SFcompare_swap _ _ _ E). destruct c; simpl; congruence.
  - apply SFcompare_None in E. destruct E; congruence.
Qed.

Lemma leb_true_not_nan x y :
  leb x y = true -> is_nan x = false /\ is_nan y = false.
Proof.
  unfold leb. rewrite FloatAxioms.leb_spec. unfold SFleb. intros E.
  rewrite !is_nan_false.
  destruct (SFcompare_diag (Prim2SF x)) as [Ex|Ex];
    [rewrite (SFcompare_nan_l _ _ Ex) in E; discriminate|].
  destruct (SFcompare_diag (Prim2SF y)) as [Ey|Ey];
    [rewrite (SFcompare_nan_r _ _ Ey) in E; discriminate|].
  auto.
Qed.

(** [a < b] excludes [b <= a]. *)
Lemma ltb_true_leb_false x y : ltb x y = true -> leb y x = false.
Proof.
  unfold ltb, leb. rewrite FloatAxioms.ltb_spec, FloatAxioms.leb_spec. unfold SFltb, SFleb.
  destruct (SFcompare (Prim2SF x) (Prim2SF y)) as [c|] eqn:E; [|discriminate].
  rewrite (SFcompare_swap _ _ _ E). destruct c; simpl; congruence.
Qed.

Lemma SFcompare_lt_le_trans x y z c :
  SFcompare x y = Some Lt -> SFcompare y z = Some c -> c <> Gt ->
  SFcompare x z = Some Lt.
Proof.
  destruct x as [sx| sx| |sx mx ex], y as [sy| sy| |sy my ey],
    z as [sz| sz| |sz mz ez]; simpl; try discriminate;
    try (destruct sx); try (destruct sy); try (destruct sz); simpl;
    try (intros; congruence).
  all: change (Pos.compare_cont Eq mx my) with (Pos.compare mx my);
       change (Pos.compare_cont Eq my mz) with (Pos.compare my mz);
       change (Pos.compare_cont Eq mx mz) with (Pos.compare mx mz).
  all: destruct (Z.compare_spec ex ey), (Z.compare_spec ey ez),
         (Z.compare_spec ex ez); try lia; try (intros; congruence);
       destruct (Pos.compare_spec mx my), (Pos.compare_spec my mz),
         (Pos.compare_spec mx mz); simpl; try lia; intros; congruence.
Qed.

(** [a < b] and [b <= c] give [a < c]. *)
Lemma ltb_leb_trans x y z : ltb x y = true -> leb y z = true -> ltb x z = true.
Proof.
  unfold ltb, leb.
  rewrite !FloatAxioms.ltb_spec, FloatAxioms.leb_spec. unfold SFltb, SFleb.
  destruct (SFcompare (Prim2SF x) (Prim2SF y)) as [[]|] eqn:Exy;
    try discriminate.
  destruct (SFcompare (Prim2SF y) (Prim2SF z)) as [c|] eqn:Eyz;
    [|discriminate].
  intros _ Hc.
  rewrite (SFcompare_lt_le_trans _ _ _ c Exy Eyz); [reflexivity|].
  destruct c; congruence.
Qed.

End F64Facts.

(** ** Writing a range of one channel *)

Section WriteRange.
Context {T : Type} `{SampleOps T}.

Lemma zget_nat (l : list T) (j : Z) : 0 <= j -> zget l j = l !! Z.to_nat j.
Proof.
  intros Hj. unfold zget. destruct (j <? 0) eqn:E; [|reflexivity].
  apply Z.ltb_lt in E. lia.
Qed.

Lemma write_range_is_Some (f : T -> T -> T) d start src num :
  0 <= start -> 0 <= num -> start + num <= Z.of_nat (length d) ->
  num <= Z.of_nat (length src) ->
  is_Some (write_range f d start src num).
Proof.
  intros. unfold write_range. rewrite bool_decide_eq_true_2 by auto. eauto.
Qed.

Lemma write_range_length (f : T -> T -> T) d start src num d' :
  write_range f d start src num = Some d' -> length d' = length d.
Proof.
  unfold write_range. case_bool_decide as Hc; [|discriminate].
  intros [= <-]. destruct Hc as (? & ? & ? & ?).
  rewrite !length_app, length_zip_with, !length_take, !length_drop. lia.
Qed.

Lemma write_range_inside (f : T -> T -> T) d start src num d' j :
  write_range f d start src num = Some d' ->
  start <= j < start + num ->
  exists o x, zget d j = Some o /\ zget src (j - start) = Some x /\
              zget d' j = Some (f o x).
Proof.
  unfold write_range. case_bool_decide as Hc; [|discriminate].
  intros [= <-] Hj. destruct Hc as (Hs & Hn & Hd & Hsrc).
  destruct (lookup_lt_is_Some_2 d (Z.to_nat j)) as [o Ho]; [lia|].
  destruct (lookup_lt_is_Some_2 src (Z.to_nat (j - start))) as [x Hx]; [lia|].
  exists o, x. rewrite !zget_nat by lia. split; [done|]. split; [done|].
  rewrite lookup_app_r by (rewrite length_take; lia).
  rewrite length_take, Nat.min_l by lia.
  rewrite lookup_app_l
    by (rewrite length_zip_with, !length_take, !length_drop; lia).
  rewrite lookup_zip_with, !lookup_take_lt, lookup_drop by lia.
  replace (Z.to_nat start + (Z.to_nat j - Z.to_nat start))%nat
    with (Z.to_nat j) by lia.
  replace (Z.to_nat j - Z.to_nat start)%nat with (Z.to_nat (j - start)) by lia.
  rewrite Ho, Hx. reflexivity.
Qed.

Lemma write_range_outside (f : T -> T -> T) d start src num d' j :
  write_range f d start src num = Some d' ->
  ~ (start <= j < start + num) ->
  zget d' j = zget d j.
Proof.
  unfold write_range. case_bool_decide as Hc; [|discriminate].
  intros [= <-] Hj. destruct Hc as (Hs & Hn & Hd & Hsrc).
  unfold zget. destruct (j <? 0) eqn:E; [reflexivity|].
  apply Z.ltb_ge in E.
  destruct (decide (j < start)) as [Hlt|Hge].
  - rewrite lookup_app_l by (rewrite length_take; lia).
    apply lookup_take_lt. lia.
  - rewrite lookup_app_r by (rewrite length_take; lia).
    rewrite length_take, Nat.min_l by lia.
    rewrite lookup_app_r
      by (rewrite length_zip_with, !length_take, !length_drop; lia).
    rewrite length_zip_with, !length_take, !length_drop, lookup_drop.
    f_equal. lia.
Qed.

(** The wrapped write succeeds on a ring of [cap] samples and touches the
    [n] samples from [p] on, modulo [cap], and nothing else. *)
Lemma wrap_write_spec (f : T -> T -> T) cap p src n d :
  Z.of_nat (length d) = cap ->
  0 <= p <= cap -> 0 <= n < cap -> n <= Z.of_nat (length src) ->
  exists d', wrap_write f cap p src n d = Some d' /\
             ring_written f cap p n src d d'.
Proof.
  intros Hlen Hp Hn Hsrc. unfold wrap_write.
  destruct (0 <=? cap - (p + n)) eqn:Hav.
  - apply Z.leb_le in Hav.
    destruct (write_range_is_Some f d p src n) as [d' Hd']; try lia.
    exists d'. split; [done|]. split; [eauto using write_range_length|]. split.
    + intros k Hk. rewrite Z.mod_small by lia.
      destruct (write_range_inside _ _ _ _ _ _ (p + k) Hd') as (o & x & ? & ? & ?);
        [lia|].
      exists o, x. replace (p + k - p) with k in * by lia. done.
    + intros j Hj Hout. eapply write_range_outside; [done|].
      intros Hin. apply (Hout (j - p)); [lia|].
      rewrite Z.mod_small by lia. lia.
  - apply Z.leb_gt in Hav.
    destruct (write_range_is_Some f d p src (n + (cap - (p + n)))) as [d1 Hd1];
      try lia.
    rewrite Hd1. simpl.
    pose proof (write_range_length _ _ _ _ _ _ Hd1) as Hl1.
    destruct (write_range_is_Some f d1 0
                (drop (Z.to_nat (n + (cap - (p + n)))) src)
                (- (cap - (p + n)))) as [d2 Hd2];
      try (rewrite ?length_drop; lia).
    exists d2. split; [done|].
    pose proof (write_range_length _ _ _ _ _ _ Hd2) as Hl2.
    split; [congruence|]. split.
    + intros k Hk. destruct (decide (p + k < cap)) as [Hlo|Hhi].
      * rewrite Z.mod_small by lia.
        destruct (write_range_inside _ _ _ _ _ _ (p + k) Hd1)
          as (o & x & Ho & Hx & Hw); [lia|].
        exists o, x. replace (p + k - p) with k in * by lia.
        split; [done|]. split; [done|].
        rewrite (write_range_outside _ _ _ _ _ _ (p + k) Hd2) by lia. done.
      * replace ((p + k) mod cap) with (p + k - cap)
          by (apply Z.mod_unique with 1; lia).
        destruct (write_range_inside _ _ _ _ _ _ (p + k - cap) Hd2)
          as (o & x & Ho & Hx & Hw); [lia|].
        exists o, x.
        rewrite (write_range_outside _ _ _ _ _ _ (p + k - cap) Hd1) in Ho by lia.
        split; [done|]. split; [|done].
        rewrite zget_nat in Hx by lia. rewrite lookup_drop in Hx.
        rewrite zget_nat by lia. rewrite <- Hx. f_equal. lia.
    + intros j Hj Hout.
      rewrite (write_range_outside _ _ _ _ _ _ j Hd2).
      * apply (write_range_outside _ _ _ _ _ _ j Hd1).
        intros Hin. apply (Hout (j - p)); [lia|].
        rewrite Z.mod_small by lia. lia.
      * intros Hin. apply (Hout (j + cap - p)); [lia|].
        replace (p + (j + cap - p)) with (j + 1 * cap) by lia.
        rewrite Z.mod_add by lia. rewrite Z.mod_small by lia. done.
Qed.

End WriteRange.

(** ** Loops over the channels *)

Section ChannelLoops.
Context {T : Type} `{SampleOps T}.

Lemma for_loop_ext {S : Type} (body1 body2 : Z -> S -> option S) count i s :
  (forall j x, body1 j x = body2 j x) ->
  for_loop count i body1 s = for_loop count i body2 s.
Proof.
  intros Hext. revert i s. induction count as [|k IH]; intros i s; simpl.
  - reflexivity.
  - rewrite Hext. destruct (body2 i s); simpl; auto.
Qed.

(** A loop whose round [c] rewrites channel [c] with [g c]: it succeeds when
    every round does, and leaves the other channels alone. *)
Lemma for_loop_on_channel (g : Z -> list T -> option (list T)) count i
    (b : AudioBuffer T) :
  0 <= i ->
  i + Z.of_nat count <= getNumChannels b ->
  (forall c ch, i <= c < i + Z.of_nat count ->
     ab_channels b !! Z.to_nat c = Some ch -> is_Some (g c ch)) ->
  exists b',
    for_loop count i (fun c x => on_channel c (g c) x) b = Some b' /\
    ab_size b' = ab_size b /\
    length (ab_channels b') = length (ab_channels b) /\
    (forall c, i <= c < i + Z.of_nat count ->
       exists ch ch', ab_channels b !! Z.to_nat c = Some ch /\
                      g c ch = Some ch' /\
                      ab_channels b' !! Z.to_nat c = Some ch') /\
    (forall c : nat, ~ (i <= Z.of_nat c < i + Z.of_nat count) ->
       ab_channels b' !! c = ab_channels b !! c).
Proof.
  revert i b. induction count as [|k IH]; intros i b Hi Hnc Hg.
  - exists b. simpl. repeat split; auto. intros c Hc. lia.
  - unfold getNumChannels in Hnc.
    destruct (lookup_lt_is_Some_2 (ab_channels b) (Z.to_nat i)) as [ch Hch];
      [lia|].
    destruct (Hg i ch) as [ch' Hch']; [lia|done|].
    set (b1 := {| ab_size := ab_size b;
                  ab_channels := <[Z.to_nat i := ch']> (ab_channels b) |}).
    assert (Hstep : on_channel i (g i) b = Some b1).
    { unfold on_channel. rewrite bool_decide_eq_true_2 by done.
      rewrite Hch. simpl. rewrite Hch'. reflexivity. }
    destruct (IH (i + 1) b1) as (b' & Hrun & Hsz & Hlen & Hin & Hout).
    + lia.
    + unfold getNumChannels, b1. simpl. rewrite length_insert. lia.
    + intros c d Hc Hd. apply (Hg c); [lia|].
      unfold b1 in Hd. simpl in Hd.
      rewrite list_lookup_insert_ne in Hd by lia. done.
    + exists b'. simpl. rewrite Hstep. simpl. split; [done|].
      split; [done|]. split; [rewrite Hlen; apply length_insert|]. split.
      * intros c Hc. destruct (decide (c = i)) as [->|Hne].
        -- exists ch, ch'. split; [done|]. split; [done|].
           rewrite Hout by lia. unfold b1. simpl.
           apply list_lookup_insert_eq. apply lookup_lt_Some in Hch. done.
        -- destruct (Hin c) as (d & d' & Hd & Hgd & Hd'); [lia|].
           exists d, d'. split; [|done].
           unfold b1 in Hd. simpl in Hd.
           rewrite list_lookup_insert_ne in Hd by lia. done.
      * intros c Hc. rewrite Hout by lia. unfold b1. simpl.
        apply list_lookup_insert_ne. lia.
Qed.

(** Two writes to channel [i] in a row are one rewrite of channel [i]. *)
Lemma on_channel_twice i g1 g2 (b : AudioBuffer T) :
  (b1 ← on_channel i g1 b; on_channel i g2 b1)
  = on_channel i (fun d => d1 ← g1 d; g2 d1) b.
Proof.
  unfold on_channel. case_bool_decide; [|reflexivity].
  destruct (ab_channels b !! Z.to_nat i) as [ch|] eqn:Hch; [|reflexivity].
  simpl. destruct (g1 ch) as [d1|]; [|reflexivity]. simpl.
  rewrite list_lookup_insert_eq by (eapply lookup_lt_Some; done). simpl.
  destruct (g2 d1) as [d2|]; [|reflexivity]. simpl.
  rewrite list_insert_insert_eq. reflexivity.
Qed.

Lemma on_channel_None i (b : AudioBuffer T) :
  on_channel i (fun _ => None) b = None.
Proof.
  unfold on_channel. case_bool_decide; [|reflexivity].
  destruct (ab_channels b !! Z.to_nat i); reflexivity.
Qed.

(** The loop body of the branch without wrap-around. *)
Lemma body_straight f (input : AudioBuffer T) cap p n i (b : AudioBuffer T) :
  0 <= cap - (p + n) ->
  (src ← getReadPointer input i 0;
   on_channel i (fun d => write_range f d p src n) b)
  = on_channel i (block_write f input cap p n i) b.
Proof.
  intros Hav. unfold block_write, wrap_write.
  rewrite (proj2 (Z.leb_le _ _) Hav).
  destruct (getReadPointer input i 0) as [src|]; simpl.
  - reflexivity.
  - symmetry. apply on_channel_None.
Qed.

(** The loop body of the branch with wrap-around. *)
Lemma body_wrapped f (input : AudioBuffer T) cap p n i (b : AudioBuffer T) :
  cap - (p + n) < 0 -> p <= cap ->
  (src ← getReadPointer input i 0;
   b1 ← on_channel i
          (fun d => write_range f d p src (n + (cap - (p + n)))) b;
   src2 ← getReadPointer input i (n + (cap - (p + n)));
   on_channel i (fun d => write_range f d 0 src2 (- (cap - (p + n)))) b1)
  = on_channel i (block_write f input cap p n i) b.
Proof.
  intros Hav Hp. unfold block_write, wrap_write.
  rewrite (proj2 (Z.leb_gt _ _) Hav).
  unfold getReadPointer.
  destruct (decide (0 <= i)) as [Hi|Hi].
  - rewrite !bool_decide_eq_true_2 by lia.
    destruct (ab_channels input !! Z.to_nat i) as [src|]; simpl.
    + rewrite <- on_channel_twice.
      destruct (on_channel i _ b); reflexivity.
    + symmetry. apply on_channel_None.
  - rewrite !bool_decide_eq_false_2 by lia. simpl.
    symmetry. apply on_channel_None.
Qed.

End ChannelLoops.

(** ** A block written into every channel of the ring *)

Section BlockWrite.
Context {T : Type} `{SampleOps T}.

Lemma wf_buffer_channel (b : AudioBuffer T) (c : nat) ch :
  wf_buffer b -> ab_channels b !! c = Some ch ->
  Z.of_nat (length ch) = ab_size b.
Proof.
  intros [Hsz Hall] Hch. rewrite Forall_lookup in Hall.
  rewrite (Hall _ _ Hch). lia.
Qed.

Lemma ring_written_shift (f : T -> T -> T) cap start n src ring ring' :
  ring_written f cap (start + cap) n src ring ring' ->
  ring_written f cap start n src ring ring'.
Proof.
  destruct (decide (cap = 0)) as [->|Hcap].
  { replace (start + 0) with start by lia. done. }
  assert (Hk : forall k, (start + cap + k) mod cap = (start + k) mod cap).
  { intros k. replace (start + cap + k) with (start + k + 1 * cap) by lia.
    apply Z.mod_add. done. }
  intros (Hlen & Hin & Hout). split; [done|]. split.
  - intros k Hr. rewrite <- Hk. auto.
  - intros j Hj Hne. apply Hout; [done|].
    intros k Hr. rewrite Hk. auto.
Qed.

Lemma block_loop (f : T -> T -> T) (input b : AudioBuffer T) p n :
  wf_buffer b -> 0 <= p <= ab_size b -> 0 <= n < ab_size b ->
  getNumChannels b = getNumChannels input -> block_ok input n ->
  exists b',
    for_range (getNumChannels b)
      (fun i x => on_channel i (block_write f input (ab_size b) p n i) x) b
    = Some b' /\
    wf_buffer b' /\ ab_size b' = ab_size b /\
    getNumChannels b' = getNumChannels b /\
    (forall (c : nat) ring, ab_channels b !! c = Some ring ->
       exists src ring', ab_channels input !! c = Some src /\
                         ab_channels b' !! c = Some ring' /\
                         ring_written f (ab_size b) p n src ring ring').
Proof.
  intros Hwf Hp Hn Hnc [Hwfi Hni].
  assert (Hg : forall (c : nat) ring, ab_channels b !! c = Some ring ->
            exists src ring', ab_channels input !! c = Some src /\
              block_write f input (ab_size b) p n (Z.of_nat c) ring = Some ring' /\
              ring_written f (ab_size b) p n src ring ring').
  { intros c ring Hring.
    destruct (lookup_lt_is_Some_2 (ab_channels input) c) as [src Hsrc].
    { apply lookup_lt_Some in Hring. unfold getNumChannels in Hnc. lia. }
    destruct (wrap_write_spec f (ab_size b) p src n ring) as (ring' & Hw & Hrw);
      eauto using wf_buffer_channel.
    { rewrite (wf_buffer_channel input c src) by done.
      unfold getNumSamples in Hni. lia. }
    exists src, ring'. split; [done|]. split; [|done].
    unfold block_write, getReadPointer.
    rewrite bool_decide_eq_true_2 by lia. rewrite Nat2Z.id, Hsrc. simpl.
    rewrite drop_0. done. }
  unfold for_range.
  destruct (for_loop_on_channel (block_write f input (ab_size b) p n)
              (Z.to_nat (getNumChannels b)) 0 b)
    as (b' & Hrun & Hsz & Hlen & Hin & Hout).
  - lia.
  - unfold getNumChannels. lia.
  - intros c ch Hc Hch. destruct (Hg _ _ Hch) as (src & ring' & _ & Hbw & _).
    rewrite Z2Nat.id in Hbw by lia. eauto.
  - exists b'. split; [done|].
    assert (Hch' : forall (c : nat) ring, ab_channels b !! c = Some ring ->
              exists src ring', ab_channels input !! c = Some src /\
                ab_channels b' !! c = Some ring' /\
                ring_written f (ab_size b) p n src ring ring').
    { intros c ring Hring.
      destruct (Hg _ _ Hring) as (src & ring' & Hsrc & Hbw & Hrw).
      destruct (Hin (Z.of_nat c)) as (ch & ch' & Hch & Hgch & Hb').
      { apply lookup_lt_Some in Hring. unfold getNumChannels. lia. }
      rewrite Nat2Z.id in Hch, Hb'.
      exists src, ring'. split; [done|]. split; [congruence|done]. }
    split; [|split; [done|split; [unfold getNumChannels; congruence|done]]].
    split; [rewrite Hsz; apply Hwf|].
    rewrite Hsz. apply Forall_lookup. intros c ring' Hring'.
    destruct (lookup_lt_is_Some_2 (ab_channels b) c) as [ring Hring].
    { apply lookup_lt_Some in Hring'. lia. }
    destruct (Hch' _ _ Hring) as (src & ring2 & _ & Hr2 & Hlen2 & _).
    assert (ring2 = ring') as -> by congruence.
    rewrite Hlen2. apply (wf_buffer_channel b c ring) in Hring; [lia|done].
Qed.

(** The two loops of [pushBlock] and of [addToPushedBlock], as written. *)
Lemma block_loop_source (f : T -> T -> T) (input b : AudioBuffer T) p n :
  p <= ab_size b ->
  (if 0 <=? ab_size b - (p + n) then
     for_range (getNumChannels b)
       (fun i x =>
          src ← getReadPointer input i 0;
          on_channel i (fun d => write_range f d p src n) x) b
   else
     for_range (getNumChannels b)
       (fun i x =>
          src ← getReadPointer input i 0;
          b1 ← on_channel i
                 (fun d => write_range f d p src (n + (ab_size b - (p + n)))) x;
          src2 ← getReadPointer input i (n + (ab_size b - (p + n)));
          on_channel i
            (fun d => write_range f d 0 src2 (- (ab_size b - (p + n)))) b1) b)
  = for_range (getNumChannels b)
      (fun i x => on_channel i (block_write f input (ab_size b) p n i) x) b.
Proof.
  intros Hp. unfold for_range.
  destruct (0 <=? ab_size b - (p + n)) eqn:Hav.
  - apply Z.leb_le in Hav. apply for_loop_ext. intros i x.
    apply body_straight. done.
  - apply Z.leb_gt in Hav. apply for_loop_ext. intros i x.
    apply body_wrapped; done.
Qed.

End BlockWrite.

(** ** The members of the class *)

Section Members.
Context {T R : Type} `{SampleOps T} `{Interpolator T R}.

Implicit Types s : ElasticDelayBuffer T R.

(** *** The channel loop of [pullBlock] *)

Lemma pull_loop s factor n count i (rs : list R) (out : AudioBuffer T) u :
  0 <= i ->
  i + Z.of_nat count <= Z.of_nat (length rs) ->
  i + Z.of_nat count <= getNumChannels (buffer s) ->
  i + Z.of_nat count <= getNumChannels out ->
  exists rs' out' u',
    for_loop count i (pull_channel s factor n) (rs, out, u)
    = Some (rs', out', u') /\
    length rs' = length rs /\
    ab_size out' = ab_size out /\
    length (ab_channels out') = length (ab_channels out) /\
    (forall c : nat, i <= Z.of_nat c < i + Z.of_nat count ->
       exists r ring o,
         rs !! c = Some r /\
         ab_channels (buffer s) !! c = Some ring /\
         ab_channels out !! c = Some o /\
         rs' !! c = Some (process_call s factor n r ring o).1.1 /\
         ab_channels out' !! c = Some (process_call s factor n r ring o).1.2) /\
    (forall c : nat, ~ (i <= Z.of_nat c < i + Z.of_nat count) ->
       rs' !! c = rs !! c /\ ab_channels out' !! c = ab_channels out !! c) /\
    (count = O -> u' = u) /\
    (count <> O ->
       exists r ring o,
         rs !! Z.to_nat (i + Z.of_nat count - 1) = Some r /\
         ab_channels (buffer s) !! Z.to_nat (i + Z.of_nat count - 1) = Some ring /\
         ab_channels out !! Z.to_nat (i + Z.of_nat count - 1) = Some o /\
         u' = (process_call s factor n r ring o).2).
Proof.
  revert i rs out u. induction count as [|k IH]; intros i rs out u Hi Hrs Hb Ho.
  - exists rs, out, u. simpl. repeat split; auto; lia.
  - unfold getNumChannels in Hb, Ho.
    destruct (lookup_lt_is_Some_2 rs (Z.to_nat i)) as [r Hr]; [lia|].
    destruct (lookup_lt_is_Some_2 (ab_channels (buffer s)) (Z.to_nat i))
      as [ring Hring]; [lia|].
    destruct (lookup_lt_is_Some_2 (ab_channels out) (Z.to_nat i)) as [o Hout];
      [lia|].
    pose (res := process_call s factor n r ring o).
    set (rs1 := <[Z.to_nat i := res.1.1]> rs).
    set (out1 := {| ab_size := ab_size out;
                    ab_channels := <[Z.to_nat i := res.1.2]> (ab_channels out) |}).
    assert (Hstep : pull_channel s factor n i (rs, out, u)
                    = Some (rs1, out1, res.2)).
    { unfold pull_channel. rewrite bool_decide_eq_true_2 by done.
      rewrite Hr, Hring, Hout. simpl.
      unfold rs1, out1, res, process_call.
      destruct (interp_process r factor ring (readPosition s) o n
                  (capacity s - readPosition s) (capacity s)) as [[r' o'] used].
      reflexivity. }
    destruct (IH (i + 1) rs1 out1 res.2)
      as (rs' & out' & u' & Hrun & Hlrs & Hsz & Hlout & Hin & Hrest & _ & Hlast).
    + lia.
    + unfold rs1. rewrite length_insert. lia.
    + unfold getNumChannels. lia.
    + unfold getNumChannels, out1. simpl. rewrite length_insert. lia.
    + exists rs', out', u'. cbn [for_loop]. rewrite Hstep. simpl.
      split; [done|].
      split; [rewrite Hlrs; apply length_insert|]. split; [done|].
      split; [rewrite Hlout; apply length_insert|]. split; [|split; [|split]].
      * intros c Hc. destruct (decide (c = Z.to_nat i)) as [->|Hne].
        -- exists r, ring, o. repeat (split; [done|]).
           destruct (Hrest (Z.to_nat i)) as [-> ->]; [lia|].
           unfold rs1, out1. simpl. fold res.
           rewrite !list_lookup_insert_eq by (eapply lookup_lt_Some; done).
           done.
        -- destruct (Hin c) as (r2 & ring2 & o2 & Hr2 & Hring2 & Ho2 & Hres);
             [lia|].
           exists r2, ring2, o2.
           unfold rs1 in Hr2. unfold out1 in Ho2. simpl in Ho2.
           rewrite list_lookup_insert_ne in Hr2 by done.
           rewrite list_lookup_insert_ne in Ho2 by done. done.
      * intros c Hc. destruct (Hrest c) as [-> ->]; [lia|].
        unfold rs1, out1. simpl.
        rewrite !list_lookup_insert_ne by lia. done.
      * discriminate.
      * intros _. destruct k as [|k'].
        -- simpl in Hrun. injection Hrun as <- <- <-.
           exists r, ring, o.
           replace (i + Z.of_nat 1 - 1) with i by lia. done.
        -- destruct Hlast as (r2 & ring2 & o2 & Hr2 & Hring2 & Ho2 & Hu);
             [done|].
           exists r2, ring2, o2.
           replace (i + Z.of_nat (S (S k')) - 1)
             with (i + 1 + Z.of_nat (S k') - 1) by lia.
           unfold rs1 in Hr2. unfold out1 in Ho2. simpl in Ho2.
           rewrite list_lookup_insert_ne in Hr2 by lia.
           rewrite list_lookup_insert_ne in Ho2 by lia. done.
Qed.

(** [pullBlock] returns when the ring is not empty and there is a ring
    channel and a resampler for every output channel; each channel is then
    run once with [pullFactor], on the read position of the call. *)
Lemma pullBlock_runs s (out : AudioBuffer T) n dt :
  capacity s <> 0 ->
  getNumChannels out <= getNumChannels (buffer s) ->
  getNumChannels out <= Z.of_nat (length (resamplers s)) ->
  exists s' out' used,
    pullBlock s out n dt = Some (s', out') /\
    runs_with s out n (pullFactor s n dt) s' out' /\
    (ab_channels out = [] -> used = 0) /\
    (ab_channels out <> [] -> last_used s out n (pullFactor s n dt) used) /\
    readPosition s' = Z.rem (readPosition s + used) (capacity s) /\
    numDelaySamples s'
      = delayOf (writePosition s') (readPosition s') (capacity s') /\
    writePosition s' = writePosition s /\
    buffer s' = buffer s /\
    maxResamplingFactor s' = maxResamplingFactor s /\
    length (resamplers s') = length (resamplers s).
Proof.
  intros Hcap Hb Hrs.
  destruct (pull_loop s (pullFactor s n dt) n (Z.to_nat (getNumChannels out)) 0
              (resamplers s) out 0)
    as (rs' & out' & u' & Hrun & Hlrs & Hsz & Hlout & Hin & Hrest & Hzero & Hlast);
    try (unfold getNumChannels in *; lia).
  exists (updateActualSampleDelay
            (set_readPosition (Z.rem (readPosition s + u') (capacity s))
               (set_resamplers rs' s))), out', u'.
  split.
  { unfold pullBlock, for_range. rewrite Hrun. simpl.
    rewrite bool_decide_eq_false_2 by done. reflexivity. }
  split.
  { intros c Hc. destruct (Hin c) as (r & ring & o & ? & ? & ? & ? & ?).
    { unfold getNumChannels. lia. }
    exists r, ring, o. simpl. done. }
  split.
  { intros Hnil. apply Hzero. unfold getNumChannels. rewrite Hnil. done. }
  split.
  { intros Hne. destruct Hlast as (r & ring & o & Hr & Hring & Ho & Hu).
    { unfold getNumChannels. destruct (ab_channels out); [done|]. simpl. lia. }
    exists r, ring, o.
    replace (length (ab_channels out) - 1)%nat
      with (Z.to_nat (0 + Z.of_nat (Z.to_nat (getNumChannels out)) - 1))
      by (unfold getNumChannels; lia).
    done. }
  simpl. repeat split; auto.
Qed.

End Members.

(** ** The clamp of the resampling factor *)

Section Clamp.

Import F64 F64Facts.

Lemma clampFactor_min_max mx raw :
  clampFactor mx raw = std_min (std_max raw minFactor) mx.
Proof. reflexivity. Qed.

(** The clamped factor is never above the upper bound, also for NaN. *)
Lemma clampFactor_not_above mx raw : ltb mx (clampFactor mx raw) = false.
Proof.
  unfold clampFactor.
  destruct (ltb mx (if ltb raw minFactor then minFactor else raw)) eqn:E.
  - apply ltb_irrefl.
  - exact E.
Qed.

(** With an upper bound below [0.0001] the result is below [0.0001]. *)
Lemma clampFactor_degenerate mx raw :
  ltb mx minFactor = true -> leb minFactor (clampFactor mx raw) = false.
Proof.
  intros Hdeg. unfold clampFactor.
  destruct (ltb raw minFactor) eqn:Elo.
  - rewrite Hdeg. apply ltb_true_leb_false. exact Hdeg.
  - destruct (ltb mx raw) eqn:Ehi.
    + apply ltb_true_leb_false. exact Hdeg.
    + destruct (leb minFactor raw) eqn:Ele; [|reflexivity].
      rewrite (ltb_leb_trans _ _ _ Hdeg Ele) in Ehi. discriminate.
Qed.

(** With an upper bound of at least [0.0001] a number is clamped into
    [[0.0001, mx]]. *)
Lemma clampFactor_in_range mx raw :
  leb minFactor mx = true -> is_nan raw = false ->
  leb minFactor (clampFactor mx raw) = true /\
  leb (clampFactor mx raw) mx = true.
Proof.
  intros Hmx Hraw.
  destruct (leb_true_not_nan _ _ Hmx) as [Hlo Hmxn].
  unfold clampFactor.
  destruct (ltb raw minFactor) eqn:Elo.
  - destruct (ltb mx minFactor) eqn:Ehi.
    + split; [exact Hmx | apply leb_refl; exact Hmxn].
    + split; [apply leb_refl; exact Hlo | exact Hmx].
  - destruct (ltb mx raw) eqn:Ehi.
    + split; [exact Hmx | apply leb_refl; exact Hmxn].
    + split; apply ltb_false_leb; assumption.
Qed.

End Clamp.

(** ** Statements about the members *)

Section Claims.
Context {T R : Type} `{SampleOps T} `{Interpolator T R}.

Implicit Types s : ElasticDelayBuffer T R.

Lemma call_pre_pull_runs s (out : AudioBuffer T) n dt :
  call_pre s (CallPullBlock out n dt) ->
  capacity s <> 0 /\
  getNumChannels out <= getNumChannels (buffer s) /\
  getNumChannels out <= Z.of_nat (length (resamplers s)).
Proof.
  intros (Hcap & Hch & Hrs & Hwf & Hn). unfold getNumSamples in *. lia.
Qed.

(** On cursors inside the ring the delay of [pullBlock] is
    [(writePos - readPos) mod N]. *)
Lemma currentDelay_mod s :
  cursors_in_range s ->
  currentDelay s = (writePosition s - readPosition s) mod capacity s.
Proof.
  intros [Hw Hr]. unfold currentDelay.
  destruct (writePosition s - readPosition s <? 0) eqn:E.
  - apply Z.ltb_lt in E. apply Z.mod_unique with (-1); lia.
  - apply Z.ltb_ge in E. symmetry. apply Z.mod_small. lia.
Qed.

(** X21: on cursors inside the ring, [pullBlock] hands every channel's
    resampler the clamp of [1 + difference / (numSamples * 8)], where
    [difference = (currentDelay - numSamples) - delayTime] and
    [currentDelay = (writePos - readPos) mod N]; the arithmetic on the
    factor is the binary64 arithmetic of the code. *)
Theorem pullBlock_factor_formula s (out : AudioBuffer T) n dt :
  call_pre s (CallPullBlock out n dt) ->
  cursors_in_range s ->
  exists s' out',
    pullBlock s out n dt = Some (s', out') /\
    runs_with s out n
      (clampFactor (maxResamplingFactor s)
         (1 + F64.of_int
                (((writePosition s - readPosition s) mod capacity s - n) - dt)
              / (F64.of_int n * 8))%float)
      s' out'.
Proof.
  intros Hpre Hcur.
  destruct (call_pre_pull_runs _ _ _ _ Hpre) as (Hcap & Hb & Hrs).
  destruct (pullBlock_runs s out n dt Hcap Hb Hrs)
    as (s' & out' & used & Hpull & Hruns & _).
  exists s', out'. split; [exact Hpull|].
  unfold pullFactor, rawFactor in Hruns.
  rewrite (currentDelay_mod s Hcur) in Hruns. exact Hruns.
Qed.

(** C4, amended: when [maxResamplingFactor] is at least [0.0001] and the
    factor before clamping is a number, the factor [pullBlock] applies lies
    in [[0.0001, maxResamplingFactor]]. *)
Theorem pullBlock_factor_clamped s (out : AudioBuffer T) n dt :
  call_pre s (CallPullBlock out n dt) ->
  F64.leb minFactor (maxResamplingFactor s) = true ->
  F64.is_nan (rawFactor s n dt) = false ->
  exists s' out',
    pullBlock s out n dt = Some (s', out') /\
    runs_with s out n (pullFactor s n dt) s' out' /\
    F64.leb minFactor (pullFactor s n dt) = true /\
    F64.leb (pullFactor s n dt) (maxResamplingFactor s) = true.
Proof.
  intros Hpre Hmx Hraw.
  destruct (call_pre_pull_runs _ _ _ _ Hpre) as (Hcap & Hb & Hrs).
  destruct (pullBlock_runs s out n dt Hcap Hb Hrs)
    as (s' & out' & used & Hpull & Hruns & _).
  exists s', out'. split; [exact Hpull|]. split; [exact Hruns|].
  apply clampFactor_in_range; assumption.
Qed.

(** C10: the factor [pullBlock] applies is
    [min (max (1 + difference / (numSamples * 8), 0.0001), maxResamplingFactor)];
    it never exceeds [maxResamplingFactor], and when [maxResamplingFactor]
    is below [0.0001] the lower bound [0.0001] does not hold for it. *)
Theorem pullBlock_clamp_order s (out : AudioBuffer T) n dt :
  call_pre s (CallPullBlock out n dt) ->
  exists s' out' f,
    pullBlock s out n dt = Some (s', out') /\
    runs_with s out n f s' out' /\
    f = std_min
          (std_max
             (1 + F64.of_int ((currentDelay s - n) - dt) / (F64.of_int n * 8))%float
             minFactor)
          (maxResamplingFactor s) /\
    F64.ltb (maxResamplingFactor s) f = false /\
    (F64.ltb (maxResamplingFactor s) minFactor = true ->
     F64.leb minFactor f = false).
Proof.
  intros Hpre.
  destruct (call_pre_pull_runs _ _ _ _ Hpre) as (Hcap & Hb & Hrs).
  destruct (pullBlock_runs s out n dt Hcap Hb Hrs)
    as (s' & out' & used & Hpull & Hruns & _).
  exists s', out', (pullFactor s n dt).
  split; [exact Hpull|]. split; [exact Hruns|].
  split; [reflexivity|].
  split; [apply clampFactor_not_above | apply clampFactor_degenerate].
Qed.

(** C7: [pullBlock] moves the read cursor once, to
    [(readPos + used) % N] with [used] the count the last channel's
    resampler returned, which is [(readPos + used) mod N] for a count that
    does not lead below zero, and then recomputes the delay snapshot. *)
Theorem pullBlock_advances_readPosition s (out : AudioBuffer T) n dt :
  call_pre s (CallPullBlock out n dt) ->
  ab_channels out <> [] ->
  exists s' out' used,
    pullBlock s out n dt = Some (s', out') /\
    last_used s out n (pullFactor s n dt) used /\
    readPosition s' = Z.rem (readPosition s + used) (capacity s) /\
    (0 <= readPosition s + used ->
     readPosition s' = (readPosition s + used) mod capacity s) /\
    writePosition s' = writePosition s /\
    capacity s' = capacity s /\
    getActualSampleDelay s'
      = delayOf (writePosition s) (readPosition s') (capacity s).
Proof.
  intros Hpre Hne.
  destruct (call_pre_pull_runs _ _ _ _ Hpre) as (Hcap & Hb & Hrs).
  destruct (pullBlock_runs s out n dt Hcap Hb Hrs)
    as (s' & out' & used & Hpull & _ & _ & Hlast & Hr & Hd & Hw & Hbuf & _).
  exists s', out', used. split; [exact Hpull|]. split; [auto|].
  split; [exact Hr|].
  assert (Hc : capacity s' = capacity s) by (unfold capacity; congruence).
  split; [|split; [exact Hw|split; [exact Hc|]]].
  - intros Hpos. rewrite Hr. apply Z.rem_mod_nonneg; [exact Hpos|].
    destruct Hpre as (Hgt & _ & _ & _ & Hn). lia.
  - unfold getActualSampleDelay. rewrite Hd, Hw, Hc. reflexivity.
Qed.

(** X22: after [setNumSamplesDelay (D)] with [0 <= D < N], on a write
    cursor inside the ring, the read cursor is [(writePos - D) mod N] and
    [getActualSampleDelay] returns [D]. *)
Theorem setNumSamplesDelay_jump s D :
  0 <= D < capacity s ->
  0 <= writePosition s < capacity s ->
  readPosition (setNumSamplesDelay s D) = (writePosition s - D) mod capacity s /\
  getActualSampleDelay (setNumSamplesDelay s D) = D.
Proof.
  intros HD Hw.
  unfold setNumSamplesDelay, getActualSampleDelay, updateActualSampleDelay,
    reset, capacity, delayOf in *. simpl.
  destruct (writePosition s - D <? 0) eqn:E.
  - apply Z.ltb_lt in E. split.
    + apply Z.mod_unique with (-1); lia.
    + rewrite (proj2 (Z.ltb_lt _ _)) by lia. lia.
  - apply Z.ltb_ge in E. split.
    + symmetry. apply Z.mod_small. lia.
    + rewrite (proj2 (Z.ltb_ge _ _)) by lia. lia.
Qed.

(** The delay part of the jump needs no assumption on the write cursor. *)
Lemma setNumSamplesDelay_delay s D :
  0 <= D < capacity s ->
  getActualSampleDelay (setNumSamplesDelay s D) = D.
Proof.
  intros HD.
  unfold setNumSamplesDelay, getActualSampleDelay, updateActualSampleDelay,
    reset, capacity, delayOf in *. simpl.
  destruct (writePosition s - D <? 0) eqn:E.
  - apply Z.ltb_lt in E. rewrite (proj2 (Z.ltb_lt _ _)) by lia. lia.
  - apply Z.ltb_ge in E. rewrite (proj2 (Z.ltb_ge _ _)) by lia. lia.
Qed.

(** C9: [setNumSamplesDelay] leaves the stored samples and the write cursor
    as they are; it moves the read cursor, resets every resampler and
    recomputes the delay snapshot. *)
Theorem setNumSamplesDelay_frame s D :
  buffer (setNumSamplesDelay s D) = buffer s /\
  writePosition (setNumSamplesDelay s D) = writePosition s /\
  maxResamplingFactor (setNumSamplesDelay s D) = maxResamplingFactor s /\
  resamplers (setNumSamplesDelay s D) = interp_reset <$> resamplers s /\
  readPosition (setNumSamplesDelay s D)
    = (if writePosition s - D <? 0 then writePosition s - D + capacity s
       else writePosition s - D) /\
  numDelaySamples (setNumSamplesDelay s D)
    = delayOf (writePosition s) (readPosition (setNumSamplesDelay s D))
              (capacity s).
Proof. repeat split. Qed.

(** *** [pushBlock] and [addToPushedBlock] *)

(** What [pushBlock] does on a ring whose write cursor is in [[0, N]]: the
    block is written from the write cursor on with wrap-around, scaled by
    the gain; the write cursor becomes [writePos + numSamples] when that is
    at most [N], and [writePos + numSamples - N] otherwise. *)
Lemma pushBlock_spec s (input : AudioBuffer T) n gain :
  wf_buffer (buffer s) ->
  0 <= writePosition s <= capacity s ->
  call_pre s (CallPushBlock input n gain) ->
  exists s',
    pushBlock s input n gain = Some s' /\
    writePosition s'
      = (if writePosition s + n <=? capacity s then writePosition s + n
         else writePosition s + n - capacity s) /\
    readPosition s' = readPosition s /\
    numDelaySamples s'
      = delayOf (writePosition s') (readPosition s) (capacity s) /\
    resamplers s' = resamplers s /\
    maxResamplingFactor s' = maxResamplingFactor s /\
    wf_buffer (buffer s') /\
    capacity s' = capacity s /\
    getNumChannels (buffer s') = getNumChannels (buffer s) /\
    (forall (c : nat) ring, ab_channels (buffer s) !! c = Some ring ->
       exists src ring',
         ab_channels input !! c = Some src /\
         ab_channels (buffer s') !! c = Some ring' /\
         ring_written (fun _ x => s_mul x gain) (capacity s)
                      (writePosition s) n src ring ring').
Proof.
  intros Hwf Hw (Hcap & Hnc & Hblk).
  unfold capacity, getNumSamples in *.
  destruct (block_loop (fun _ x => s_mul x gain) input (buffer s)
              (writePosition s) n)
    as (b' & Hloop & Hwf' & Hsz & Hch & Hrw);
    try done; try (destruct Hblk as [_ ?]; lia).
  rewrite <- (block_loop_source _ input (buffer s) (writePosition s) n)
    in Hloop by lia.
  unfold pushBlock, capacity, getNumSamples, copyFrom.
  destruct (0 <=? ab_size (buffer s) - (writePosition s + n)) eqn:E;
    rewrite Hloop; simpl; eexists; (split; [reflexivity|]); simpl.
  - apply Z.leb_le in E.
    rewrite (proj2 (Z.leb_le _ _)) by lia.
    split; [reflexivity|]. split; [reflexivity|].
    split; [unfold capacity, getNumSamples; simpl; rewrite Hsz; reflexivity|].
    split; [reflexivity|]. split; [reflexivity|]. split; [exact Hwf'|].
    split; [exact Hsz|]. split; [exact Hch | exact Hrw].
  - apply Z.leb_gt in E.
    rewrite (proj2 (Z.leb_gt _ _)) by lia.
    split; [lia|].
    split; [reflexivity|].
    split; [unfold capacity, getNumSamples; simpl; rewrite Hsz; reflexivity|].
    split; [reflexivity|]. split; [reflexivity|]. split; [exact Hwf'|].
    split; [exact Hsz|]. split; [exact Hch | exact Hrw].
Qed.

(** X16: away from the end of the ring the new write cursor is
    [(writePos + numSamples) mod N]. *)
Lemma pushBlock_writePosition_mod s (input : AudioBuffer T) n gain s' :
  wf_buffer (buffer s) ->
  0 <= writePosition s <= capacity s ->
  call_pre s (CallPushBlock input n gain) ->
  writePosition s + n <> capacity s ->
  pushBlock s input n gain = Some s' ->
  writePosition s' = (writePosition s + n) mod capacity s.
Proof.
  intros Hwf Hw Hpre Hne Hpush.
  destruct (pushBlock_spec s input n gain Hwf Hw Hpre) as (s2 & Hs2 & Hw2 & _).
  assert (s2 = s') as -> by congruence.
  rewrite Hw2. destruct Hpre as (Hcap & _ & _ & Hn).
  destruct (writePosition s + n <=? capacity s) eqn:E.
  - apply Z.leb_le in E. symmetry. apply Z.mod_small. lia.
  - apply Z.leb_gt in E. apply Z.mod_unique with 1; lia.
Qed.

(** What [addToPushedBlock] does on a ring whose write cursor is in
    [[0, N]]. *)
Lemma addToPushedBlock_spec s (input : AudioBuffer T) n gain :
  wf_buffer (buffer s) ->
  0 <= writePosition s <= capacity s ->
  n < capacity s ->
  getNumChannels (buffer s) = getNumChannels input ->
  block_ok input n ->
  exists s',
    addToPushedBlock s input n gain = Some s' /\
    writePosition s' = writePosition s /\
    readPosition s' = readPosition s /\
    numDelaySamples s' = numDelaySamples s /\
    resamplers s' = resamplers s /\
    maxResamplingFactor s' = maxResamplingFactor s /\
    wf_buffer (buffer s') /\
    capacity s' = capacity s /\
    getNumChannels (buffer s') = getNumChannels (buffer s) /\
    (forall (c : nat) ring, ab_channels (buffer s) !! c = Some ring ->
       exists src ring',
         ab_channels input !! c = Some src /\
         ab_channels (buffer s') !! c = Some ring' /\
         ring_written (fun o x => s_add o (s_mul x gain)) (capacity s)
                      (writePosition s - n) n src ring ring').
Proof.
  intros Hwf Hw Hcap Hnc Hblk.
  unfold capacity, getNumSamples in *.
  pose proof Hblk as [_ [Hn0 _]].
  set (previousWrite :=
         if writePosition s - n <? 0
         then writePosition s - n + ab_size (buffer s)
         else writePosition s - n).
  assert (Hpw : 0 <= previousWrite <= ab_size (buffer s)).
  { unfold previousWrite. destruct (writePosition s - n <? 0) eqn:E.
    - apply Z.ltb_lt in E. lia.
    - apply Z.ltb_ge in E. lia. }
  destruct (block_loop (fun o x => s_add o (s_mul x gain)) input (buffer s)
              previousWrite n)
    as (b' & Hloop & Hwf' & Hsz & Hch & Hrw); try done; try lia.
  rewrite <- (block_loop_source _ input (buffer s) previousWrite n)
    in Hloop by lia.
  unfold addToPushedBlock, capacity, getNumSamples, addFrom.
  fold previousWrite.
  assert (Hregion : forall (c : nat) ring,
            ab_channels (buffer s) !! c = Some ring ->
            exists src ring',
              ab_channels input !! c = Some src /\
              ab_channels b' !! c = Some ring' /\
              ring_written (fun o x => s_add o (s_mul x gain))
                (ab_size (buffer s)) (writePosition s - n) n src ring ring').
  { intros c ring Hring.
    destruct (Hrw c ring Hring) as (src & ring' & Hsrc & Hring' & Hwr).
    exists src, ring'. split; [done|]. split; [done|].
    unfold previousWrite in Hwr.
    destruct (writePosition s - n <? 0); [|done].
    apply ring_written_shift. done. }
  destruct (0 <=? ab_size (buffer s) - (previousWrite + n)) eqn:E;
    rewrite Hloop; simpl; eexists; (split; [reflexivity|]); simpl;
    (split; [reflexivity|]); (split; [reflexivity|]);
    (split; [reflexivity|]); (split; [reflexivity|]);
    (split; [reflexivity|]); (split; [exact Hwf'|]); (split; [exact Hsz|]);
    (split; [exact Hch | exact Hregion]).
Qed.

(** C8: [addToPushedBlock] adds the gain-scaled block into the
    [numSamples] ring samples that end at the write cursor, wrapping at
    [N], and changes neither a cursor, nor the delay snapshot, nor a sample
    outside that region. *)
Theorem addToPushedBlock_overlay s (input : AudioBuffer T) n gain :
  wf_buffer (buffer s) ->
  0 <= writePosition s <= capacity s ->
  n < capacity s ->
  getNumChannels (buffer s) = getNumChannels input ->
  block_ok input n ->
  exists s',
    addToPushedBlock s input n gain = Some s' /\
    writePosition s' = writePosition s /\
    readPosition s' = readPosition s /\
    getActualSampleDelay s' = getActualSampleDelay s /\
    capacity s' = capacity s /\
    getNumChannels (buffer s') = getNumChannels (buffer s) /\
    (forall (c : nat) ring, ab_channels (buffer s) !! c = Some ring ->
       exists src ring',
         ab_channels input !! c = Some src /\
         ab_channels (buffer s') !! c = Some ring' /\
         ring_written (fun o x => s_add o (s_mul x gain)) (capacity s)
                      (writePosition s - n) n src ring ring').
Proof.
  intros Hwf Hw Hcap Hnc Hblk.
  destruct (addToPushedBlock_spec s input n gain Hwf Hw Hcap Hnc Hblk)
    as (s' & Hadd & Hw' & Hr' & Hd' & _ & _ & _ & Hc' & Hch' & Hring).
  exists s'. unfold getActualSampleDelay. auto 10.
Qed.

(** *** [setSize] *)

Lemma length_add_resamplers k (rs : list R) :
  length (add_resamplers k rs) = (length rs + k)%nat.
Proof.
  revert rs. induction k as [|k IH]; intros rs; simpl; [lia|].
  rewrite IH, length_app. simpl. lia.
Qed.

Lemma length_remove_resamplers k (rs : list R) :
  length (remove_resamplers k rs) = (length rs - k)%nat.
Proof.
  revert rs. induction k as [|k IH]; intros rs; simpl; [lia|].
  rewrite IH, removelast_firstn_len, length_take. lia.
Qed.

(** After the two loops there is one resampler per channel. *)
Lemma length_resize_pool nc (rs : list R) :
  length (resize_pool nc rs) = Z.to_nat nc.
Proof.
  unfold resize_pool.
  rewrite length_remove_resamplers, length_add_resamplers. lia.
Qed.

Lemma wf_ab_setSize (b : AudioBuffer T) nc ns :
  wf_buffer b -> 0 <= nc -> 0 <= ns ->
  wf_buffer (ab_setSize b nc ns) /\
  getNumChannels (ab_setSize b nc ns) = nc /\
  getNumSamples (ab_setSize b nc ns) = ns.
Proof.
  intros Hwf Hnc Hns. unfold ab_setSize.
  case_bool_decide as Hsame.
  - destruct Hsame as [-> ->]. done.
  - unfold wf_buffer, getNumChannels, getNumSamples. simpl.
    rewrite length_replicate. repeat split; try lia.
    apply Forall_replicate. unfold zeros. apply length_replicate.
Qed.

Lemma wf_ab_clear (b : AudioBuffer T) :
  wf_buffer b -> wf_buffer (ab_clear b).
Proof.
  intros [Hsz _]. split; [done|]. simpl.
  apply Forall_fmap, Forall_true. intros c. simpl.
  unfold zeros. apply length_replicate.
Qed.

Lemma ab_clear_setSize (b : AudioBuffer T) nc ns :
  0 <= nc ->
  ab_channels (ab_clear (ab_setSize b nc ns)) = replicate (Z.to_nat nc) (zeros ns) /\
  ab_size (ab_clear (ab_setSize b nc ns)) = ns.
Proof.
  intros Hnc. unfold ab_setSize. case_bool_decide as Hsame; simpl.
  - destruct Hsame as [Hc Hs]. unfold getNumSamples, getNumChannels in *.
    split; [|symmetry; exact Hs]. rewrite <- Hs, Hc, Nat2Z.id. clear Hc Hs.
    induction (ab_channels b) as [|c l IH]; simpl; [done|].
    f_equal. apply IH.
  - split; [|done]. apply (fmap_replicate (fun _ => zeros ns)).
Qed.

(** X14: what [setSize] does when the write cursor does not fit the new
    capacity: the write cursor is set to zero, the storage is cleared,
    every resampler is reset and the delay snapshot is recomputed; the
    read cursor is not assigned. *)
Lemma setSize_hard_reset s nc ns sr :
  0 <= nc -> 0 <= ns -> ns <= writePosition s ->
  exists s',
    setSize s nc ns sr = Some s' /\
    writePosition s' = 0 /\
    readPosition s' = readPosition s /\
    capacity s' = ns /\
    ab_channels (buffer s') = replicate (Z.to_nat nc) (zeros ns) /\
    resamplers s' = interp_reset <$> resize_pool nc (resamplers s) /\
    numDelaySamples s' = delayOf 0 (readPosition s) ns /\
    maxResamplingFactor s' = maxResamplingFactor s.
Proof.
  intros Hnc Hns Hw. unfold setSize.
  rewrite bool_decide_eq_true_2 by done. simpl.
  rewrite (proj2 (Z.leb_le _ _) Hw).
  eexists. split; [reflexivity|].
  destruct (ab_clear_setSize (buffer s) nc ns Hnc) as [Hch Hsz].
  simpl in Hsz. unfold capacity, getNumSamples. simpl.
  split; [reflexivity|]. split; [reflexivity|]. split; [exact Hsz|].
  split; [exact Hch|]. split; [reflexivity|].
  split; [|reflexivity].
  unfold capacity, getNumSamples. simpl. rewrite Hsz. reflexivity.
Qed.

(** *** The upper bound of the factor *)

Lemma maxResamplingFactor_new d0 :
  maxResamplingFactor (newElasticDelayBuffer d0 : ElasticDelayBuffer T R)
  = 8%float.
Proof. reflexivity. Qed.

(** X17: only [setMaxResamplingFactor] changes the bound. *)
Lemma maxResamplingFactor_exec s c s' :
  exec s c = Some s' ->
  maxResamplingFactor s'
  = match c with
    | CallSetMaxResamplingFactor f => f
    | _ => maxResamplingFactor s
    end.
Proof.
  destruct c as [nc ns sr|d|f| |input n g|input n g|out n dt]; simpl.
  - unfold setSize. case_bool_decide; [|discriminate].
    simpl. destruct (ns <=? writePosition s); intros [= <-]; reflexivity.
  - intros [= <-]. reflexivity.
  - intros [= <-]. reflexivity.
  - intros [= <-]. reflexivity.
  - unfold pushBlock.
    destruct (0 <=? capacity s - (writePosition s + n));
      match goal with |- context [for_range ?a ?b ?c] =>
        destruct (for_range a b c) end; simpl; try discriminate;
      intros [= <-]; reflexivity.
  - unfold addToPushedBlock.
    match goal with |- context [if ?t then _ else _] => destruct t end;
      match goal with |- context [for_range ?a ?b ?c] =>
        destruct (for_range a b c) end; simpl; try discriminate;
      intros [= <-]; reflexivity.
  - unfold pullBlock.
    match goal with |- context [for_range ?a ?b ?c] =>
      destruct (for_range a b c) as [[[rs o] u]|] end; simpl;
      [|discriminate].
    case_bool_decide; simpl; [discriminate|].
    intros [= <-]. reflexivity.
Qed.

(** *** What every reachable state satisfies *)

Lemma shape_ok_new d0 : shape_ok (newElasticDelayBuffer d0 : ElasticDelayBuffer T R).
Proof.
  unfold shape_ok, wf_buffer, capacity, getNumSamples, getNumChannels. simpl.
  repeat split; try lia. constructor.
Qed.

Lemma shape_ok_setSize s nc ns sr s' :
  shape_ok s -> setSize s nc ns sr = Some s' -> shape_ok s'.
Proof.
  intros (Hwf & Hch & Hw). unfold setSize.
  case_bool_decide as Hpre; [|discriminate]. destruct Hpre as [Hnc Hns].
  destruct (wf_ab_setSize (buffer s) nc ns Hwf Hnc Hns) as (Hwf1 & Hch1 & Hsz1).
  simpl. destruct (ns <=? writePosition s) eqn:E; intros [= <-];
    unfold shape_ok, capacity; simpl.
  - split; [apply wf_ab_clear; exact Hwf1|]. split.
    + unfold getNumChannels in *. simpl.
      rewrite !length_fmap, length_resize_pool. lia.
    + unfold getNumSamples in *. simpl. lia.
  - apply Z.leb_gt in E. split; [exact Hwf1|]. split.
    + rewrite Hch1, length_resize_pool. lia.
    + rewrite Hsz1. lia.
Qed.

Lemma shape_ok_exec s c s' :
  shape_ok s -> call_pre s c -> exec s c = Some s' -> shape_ok s'.
Proof.
  intros Hok Hpre Hexec. destruct c as [nc ns sr|d|f| |input n g|input n g|out n dt];
    simpl in Hexec.
  - eapply shape_ok_setSize; eauto.
  - injection Hexec as <-. destruct Hok as (Hwf & Hch & Hw).
    unfold shape_ok, capacity, getNumChannels in *. simpl.
    rewrite length_fmap. auto.
  - injection Hexec as <-. exact Hok.
  - injection Hexec as <-. destruct Hok as (Hwf & Hch & Hw).
    unfold shape_ok, capacity, getNumChannels in *. simpl.
    rewrite length_fmap. auto.
  - destruct Hok as (Hwf & Hch & Hw).
    destruct (pushBlock_spec s input n g Hwf Hw Hpre)
      as (s2 & Hs2 & Hw2 & _ & _ & Hrs & _ & Hwf2 & Hc2 & Hch2 & _).
    assert (s2 = s') as -> by congruence.
    split; [exact Hwf2|]. split; [congruence|].
    rewrite Hw2, Hc2. destruct Hpre as (Hcap & _ & _ & Hn).
    destruct (writePosition s + n <=? capacity s) eqn:E.
    + apply Z.leb_le in E. lia.
    + apply Z.leb_gt in E. lia.
  - destruct Hok as (Hwf & Hch & Hw). destruct Hpre as (Hcap & Hnc & Hblk).
    destruct (addToPushedBlock_spec s input n g Hwf Hw) as
      (s2 & Hs2 & Hw2 & _ & _ & Hrs & _ & Hwf2 & Hc2 & Hch2 & _);
      [lia|done|done|].
    assert (s2 = s') as -> by congruence.
    split; [exact Hwf2|]. split; congruence.
  - destruct (call_pre_pull_runs _ _ _ _ Hpre) as (Hcap & Hb & Hrs).
    destruct (pullBlock_runs s out n dt Hcap Hb Hrs)
      as (s2 & out' & used & Hpull & _ & _ & _ & _ & _ & Hw2 & Hbuf & _ & Hlen).
    rewrite Hpull in Hexec. simpl in Hexec. injection Hexec as <-.
    destruct Hok as (Hwf & Hch & Hw).
    unfold shape_ok, capacity. rewrite Hbuf, Hw2, Hlen. auto.
Qed.

(** X15: every reachable state has a well-formed ring, one resampler per
    channel and a write cursor in [[0, N]]. *)
Lemma reachable_shape_ok s : reachable s -> shape_ok s.
Proof.
  induction 1 as [d0|s c s' _ IH Hpre Hexec].
  - apply shape_ok_new.
  - eapply shape_ok_exec; eauto.
Qed.

(** A run of calls that meet their preconditions. *)
Lemma run_reachable cs : forall s s',
  reachable s -> pre_run s cs -> run s cs = Some s' -> reachable s'.
Proof.
  induction cs as [|c cs IH]; intros s s' Hs Hpre Hrun; simpl in *.
  - injection Hrun as <-. exact Hs.
  - destruct Hpre as [Hc Hrest].
    destruct (exec s c) as [s1|] eqn:E; [|done]. simpl in Hrun.
    apply (IH s1); [|exact Hrest|exact Hrun].
    eapply reachable_call; eauto.
Qed.

End Claims.

(** ** Further properties of the members *)

Section MoreProperties.
Context {T R : Type} `{SampleOps T} `{Interpolator T R}.

Implicit Types s : ElasticDelayBuffer T R.

(** *** The delay snapshot *)

Lemma delayOf_mod w r n :
  0 <= w < n -> 0 <= r < n ->
  delayOf w r n = (w - r) mod n /\ 0 <= delayOf w r n < n.
Proof.
  intros Hw Hr. unfold delayOf. destruct (w <? r) eqn:E.
  - apply Z.ltb_lt in E. split; [|lia]. apply Z.mod_unique with (-1); lia.
  - apply Z.ltb_ge in E. split; [|lia]. symmetry. apply Z.mod_small. lia.
Qed.

(** X1: on cursors inside the ring [updateActualSampleDelay] stores
    [(writePos - readPos) mod N], a value in [[0, N)]. *)
Theorem updateActualSampleDelay_mod s :
  cursors_in_range s ->
  getActualSampleDelay (updateActualSampleDelay s)
    = (writePosition s - readPosition s) mod capacity s /\
  0 <= getActualSampleDelay (updateActualSampleDelay s) < capacity s.
Proof.
  intros [Hw Hr]. unfold getActualSampleDelay, updateActualSampleDelay. simpl.
  apply delayOf_mod; assumption.
Qed.

Lemma updateActualSampleDelay_consistent s :
  delay_consistent (updateActualSampleDelay s).
Proof. reflexivity. Qed.

Lemma for_loop_inv {S : Type} (P : S -> Prop) (body : Z -> S -> option S) :
  (forall i x y, P x -> body i x = Some y -> P y) ->
  forall count i x y, P x -> for_loop count i body x = Some y -> P y.
Proof.
  intros Hbody count. induction count as [|k IH]; intros i x y Hx; simpl.
  - intros [= <-]. exact Hx.
  - destruct (body i x) as [x1|] eqn:E; [|discriminate]. simpl.
    apply IH. eapply Hbody; eauto.
Qed.

Lemma on_channel_size i g (b b' : AudioBuffer T) :
  on_channel i g b = Some b' -> ab_size b' = ab_size b.
Proof.
  unfold on_channel. case_bool_decide; [|discriminate].
  destruct (ab_channels b !! Z.to_nat i) as [ch|]; [|discriminate]. simpl.
  destruct (g ch) as [ch'|]; [|discriminate]. simpl.
  intros [= <-]. reflexivity.
Qed.

(** [addToPushedBlock] never changes the capacity, whatever it is given. *)
Lemma addToPushedBlock_capacity s (input : AudioBuffer T) n gain s' :
  addToPushedBlock s input n gain = Some s' ->
  capacity s' = capacity s /\
  writePosition s' = writePosition s /\
  readPosition s' = readPosition s /\
  numDelaySamples s' = numDelaySamples s.
Proof.
  unfold addToPushedBlock.
  match goal with |- context [if ?t then _ else _] => destruct t end;
    match goal with |- context [for_range ?a ?b ?c] =>
      destruct (for_range a b c) as [b'|] eqn:E end; simpl; try discriminate;
    intros [= <-]; unfold capacity, getNumSamples; simpl;
    (split; [|auto]);
    unfold for_range in E;
    apply (for_loop_inv (fun x => ab_size x = ab_size (buffer s))) in E;
    auto; clear E; intros i x y Hx; unfold addFrom.
  - destruct (getReadPointer input i 0) as [src|]; simpl; [|discriminate].
    intros E. apply on_channel_size in E. congruence.
  - destruct (getReadPointer input i 0) as [src|]; simpl; [|discriminate].
    match goal with |- context [on_channel ?a ?b x] =>
      destruct (on_channel a b x) as [x1|] eqn:E1 end; simpl; [|discriminate].
    match goal with |- context [getReadPointer input i ?o] =>
      destruct (getReadPointer input i o) as [src2|] end; simpl;
      [|discriminate].
    intros E2. apply on_channel_size in E1. apply on_channel_size in E2.
    congruence.
Qed.

(** X2: the members that move a cursor or resize the ring ([setSize],
    [setNumSamplesDelay], [pushBlock], [pullBlock]) leave the delay
    snapshot equal to the delay of the new cursors, and the other members
    keep a snapshot that was. *)
Theorem exec_delay_consistent s c s' :
  exec s c = Some s' ->
  delay_consistent s \/ recomputes_delay c = true ->
  delay_consistent s'.
Proof.
  destruct c as [nc ns sr|d|f| |input n g|input n g|out n dt]; simpl.
  - unfold setSize. case_bool_decide; [|discriminate].
    intros [= <-] _. apply updateActualSampleDelay_consistent.
  - intros [= <-] _. apply updateActualSampleDelay_consistent.
  - intros [= <-] [Hs|Hc]; [exact Hs|discriminate].
  - intros [= <-] [Hs|Hc]; [exact Hs|discriminate].
  - unfold pushBlock.
    destruct (0 <=? capacity s - (writePosition s + n));
      match goal with |- context [for_range ?a ?b ?c] =>
        destruct (for_range a b c) end; simpl; try discriminate;
      intros [= <-] _; apply updateActualSampleDelay_consistent.
  - intros Hadd [Hs|Hc]; [|discriminate].
    destruct (addToPushedBlock_capacity _ _ _ _ _ Hadd) as (Hc & Hw & Hr & Hd).
    unfold delay_consistent. rewrite Hc, Hw, Hr, Hd. exact Hs.
  - unfold pullBlock.
    match goal with |- context [for_range ?a ?b ?c] =>
      destruct (for_range a b c) as [[[rs o] u]|] end; simpl;
      [|discriminate].
    case_bool_decide; simpl; [discriminate|].
    intros [= <-] _. apply updateActualSampleDelay_consistent.
Qed.

(** *** [pushBlock] *)

(** X3: under its [jassert]s, on a ring with the write cursor in
    [[0, N]], [pushBlock] returns; every channel then holds
    [input[k] * gain] at index [(writePos + k) mod N] for [k < numSamples]
    and its old samples elsewhere, and the read cursor, the resamplers and
    the factor bound are as before. *)
Theorem pushBlock_writes_block s (input : AudioBuffer T) n gain :
  wf_buffer (buffer s) ->
  0 <= writePosition s <= capacity s ->
  call_pre s (CallPushBlock input n gain) ->
  exists s',
    pushBlock s input n gain = Some s' /\
    readPosition s' = readPosition s /\
    resamplers s' = resamplers s /\
    maxResamplingFactor s' = maxResamplingFactor s /\
    capacity s' = capacity s /\
    getNumChannels (buffer s') = getNumChannels (buffer s) /\
    (forall (c : nat) ring, ab_channels (buffer s) !! c = Some ring ->
       exists src ring',
         ab_channels input !! c = Some src /\
         ab_channels (buffer s') !! c = Some ring' /\
         ring_written (fun _ x => s_mul x gain) (capacity s)
                      (writePosition s) n src ring ring').
Proof.
  intros Hwf Hw Hpre.
  destruct (pushBlock_spec s input n gain Hwf Hw Hpre)
    as (s' & Hpush & _ & Hr & _ & Hrs & Hmx & _ & Hc & Hch & Hring).
  exists s'. auto 10.
Qed.

(** X4: a push that does not fill the ring (the buffered delay plus
    [numSamples] stays below [N]) raises the delay snapshot by exactly
    [numSamples]. *)
Theorem pushBlock_grows_delay s (input : AudioBuffer T) n gain :
  wf_buffer (buffer s) ->
  cursors_in_range s ->
  call_pre s (CallPushBlock input n gain) ->
  delayOf (writePosition s) (readPosition s) (capacity s) + n < capacity s ->
  exists s',
    pushBlock s input n gain = Some s' /\
    getActualSampleDelay s'
      = delayOf (writePosition s) (readPosition s) (capacity s) + n.
Proof.
  intros Hwf [Hw Hr] Hpre Hroom.
  destruct (pushBlock_spec s input n gain Hwf ltac:(lia) Hpre)
    as (s' & Hpush & Hw' & _ & Hd & _).
  exists s'. split; [exact Hpush|].
  unfold getActualSampleDelay. rewrite Hd, Hw'.
  destruct Hpre as (_ & _ & _ & Hn). revert Hroom. unfold delayOf.
  destruct (writePosition s + n <=? capacity s) eqn:E1;
    [apply Z.leb_le in E1 | apply Z.leb_gt in E1];
    destruct (writePosition s <? readPosition s) eqn:E2;
    [apply Z.ltb_lt in E2 | apply Z.ltb_ge in E2
    |apply Z.ltb_lt in E2 | apply Z.ltb_ge in E2];
    match goal with |- context [?a <? ?b] =>
      destruct (a <? b) eqn:E3;
      [apply Z.ltb_lt in E3 | apply Z.ltb_ge in E3] end; lia.
Qed.

Lemma list_eq_zget (l1 l2 : list T) n :
  Z.of_nat (length l1) = n -> length l2 = length l1 ->
  (forall j, 0 <= j < n -> zget l2 j = zget l1 j) -> l2 = l1.
Proof.
  intros Hl1 Hl2 Hget. apply list_eq. intros i.
  destruct (decide (i < length l1)%nat) as [Hi|Hi].
  - specialize (Hget (Z.of_nat i) ltac:(lia)).
    rewrite !zget_nat, Nat2Z.id in Hget by lia. exact Hget.
  - rewrite !(proj2 (lookup_ge_None _ _)) by lia. reflexivity.
Qed.

(** X5: pushing an empty block changes neither the ring nor a cursor. *)
Theorem pushBlock_empty_block s (input : AudioBuffer T) gain :
  wf_buffer (buffer s) ->
  0 <= writePosition s <= capacity s ->
  call_pre s (CallPushBlock input 0 gain) ->
  exists s',
    pushBlock s input 0 gain = Some s' /\
    buffer s' = buffer s /\
    writePosition s' = writePosition s /\
    readPosition s' = readPosition s.
Proof.
  intros Hwf Hw Hpre.
  destruct (pushBlock_spec s input 0 gain Hwf Hw Hpre)
    as (s' & Hpush & Hw' & Hr & _ & _ & _ & _ & Hc & Hch & Hring).
  exists s'. split; [exact Hpush|]. split; [|split; [|exact Hr]].
  - assert (Hchs : ab_channels (buffer s') = ab_channels (buffer s)).
    { apply list_eq. intros c.
      destruct (ab_channels (buffer s) !! c) as [ring|] eqn:Ering.
      - destruct (Hring c ring Ering)
          as (src & ring' & _ & Hring' & Hlen & _ & Hout).
        rewrite Hring'. f_equal.
        apply (list_eq_zget ring ring' (capacity s)); auto.
        + eapply wf_buffer_channel; eauto.
        + intros j Hj. apply Hout; [exact Hj|]. intros k Hk. lia.
      - apply lookup_ge_None in Ering. apply lookup_ge_None.
        unfold getNumChannels in Hch. lia. }
    unfold capacity, getNumSamples in Hc.
    destruct (buffer s'), (buffer s). simpl in *. congruence.
  - rewrite Hw'. replace (writePosition s + 0) with (writePosition s) by lia.
    destruct (writePosition s <=? capacity s) eqn:E; [reflexivity|].
    apply Z.leb_gt in E. lia.
Qed.

Lemma ring_written_unshift (f : T -> T -> T) cap start n src ring ring' :
  ring_written f cap start n src ring ring' ->
  ring_written f cap (start + cap) n src ring ring'.
Proof.
  destruct (decide (cap = 0)) as [->|Hcap].
  { replace (start + 0) with start by lia. done. }
  assert (Hk : forall k, (start + cap + k) mod cap = (start + k) mod cap).
  { intros k. replace (start + cap + k) with (start + k + 1 * cap) by lia.
    apply Z.mod_add. done. }
  intros (Hlen & Hin & Hout). split; [done|]. split.
  - intros k Hr. rewrite Hk. auto.
  - intros j Hj Hne. apply Hout; [done|].
    intros k Hr. rewrite <- Hk. auto.
Qed.

(** X6: [addToPushedBlock] right after a [pushBlock] of the same
    [numSamples] lands on the block just pushed: every channel holds
    [a * gain1 + b * gain2] at [(writePos + k) mod N], with [a] and [b] the
    [k]-th samples of the two inputs and [writePos] the write cursor before
    the push, and its old samples elsewhere. *)
Theorem pushBlock_then_addToPushedBlock s (in1 in2 : AudioBuffer T) n g1 g2 :
  wf_buffer (buffer s) ->
  0 <= writePosition s <= capacity s ->
  call_pre s (CallPushBlock in1 n g1) ->
  call_pre s (CallAddToPushedBlock in2 n g2) ->
  exists s1 s2,
    pushBlock s in1 n g1 = Some s1 /\
    addToPushedBlock s1 in2 n g2 = Some s2 /\
    writePosition s2 = writePosition s1 /\
    getActualSampleDelay s2 = getActualSampleDelay s1 /\
    (forall (c : nat) ring, ab_channels (buffer s) !! c = Some ring ->
       exists x1 x2 ring2,
         ab_channels in1 !! c = Some x1 /\
         ab_channels in2 !! c = Some x2 /\
         ab_channels (buffer s2) !! c = Some ring2 /\
         length ring2 = length ring /\
         (forall k, 0 <= k < n ->
            exists a b,
              zget x1 k = Some a /\ zget x2 k = Some b /\
              zget ring2 ((writePosition s + k) mod capacity s)
                = Some (s_add (s_mul a g1) (s_mul b g2))) /\
         (forall j, 0 <= j < capacity s ->
            (forall k, 0 <= k < n ->
               j <> (writePosition s + k) mod capacity s) ->
            zget ring2 j = zget ring j)).
Proof.
  intros Hwf Hw Hpre1 (Hcap2 & Hnc2 & Hblk2).
  destruct (pushBlock_spec s in1 n g1 Hwf Hw Hpre1)
    as (s1 & Hpush & Hw1 & _ & _ & _ & _ & Hwf1 & Hc1 & Hch1 & Hring1).
  pose proof Hblk2 as [_ [Hn0 _]].
  assert (Hw1r : 0 <= writePosition s1 <= capacity s1).
  { rewrite Hw1, Hc1.
    destruct (writePosition s + n <=? capacity s) eqn:E;
      [apply Z.leb_le in E | apply Z.leb_gt in E]; lia. }
  destruct (addToPushedBlock_spec s1 in2 n g2 Hwf1 Hw1r)
    as (s2 & Hadd & Hw2 & _ & Hd2 & _ & _ & _ & Hc2 & Hch2 & Hring2);
    [lia|congruence|exact Hblk2|].
  exists s1, s2. split; [exact Hpush|]. split; [exact Hadd|].
  split; [exact Hw2|]. split; [exact Hd2|].
  intros c ring Ering.
  destruct (Hring1 c ring Ering) as (x1 & ring1 & Hx1 & Ering1 & Hrw1).
  destruct (Hring2 c ring1 Ering1) as (x2 & ring2 & Hx2 & Ering2 & Hrw2).
  rewrite Hc1 in Hrw2.
  assert (Hrw2' : ring_written (fun o x => s_add o (s_mul x g2)) (capacity s)
                    (writePosition s) n x2 ring1 ring2).
  { rewrite Hw1 in Hrw2.
    destruct (writePosition s + n <=? capacity s).
    - replace (writePosition s + n - n) with (writePosition s) in Hrw2 by lia.
      exact Hrw2.
    - apply ring_written_unshift in Hrw2.
      replace (writePosition s + n - capacity s - n + capacity s)
        with (writePosition s) in Hrw2 by lia.
      exact Hrw2. }
  destruct Hrw1 as (Hl1 & Hin1 & Hout1). destruct Hrw2' as (Hl2 & Hin2 & Hout2).
  exists x1, x2, ring2. split; [exact Hx1|]. split; [exact Hx2|].
  split; [exact Ering2|]. split; [congruence|]. split.
  - intros k Hk.
    destruct (Hin1 k Hk) as (o1 & a & _ & Ha & Hr1).
    destruct (Hin2 k Hk) as (o2 & b & Ho2 & Hb & Hr2).
    exists a, b. split; [exact Ha|]. split; [exact Hb|].
    rewrite Hr2. rewrite Hr1 in Ho2. injection Ho2 as <-. reflexivity.
  - intros j Hj Hne. rewrite (Hout2 j Hj Hne). apply Hout1; assumption.
Qed.

(** X7: [setNumSamplesDelay (numSamples)] right after a [pushBlock] of
    [numSamples] samples puts the read cursor on the first sample of that
    block, and the delay snapshot is [numSamples]. *)
Theorem pushBlock_then_setNumSamplesDelay s (input : AudioBuffer T) n gain :
  wf_buffer (buffer s) ->
  0 <= writePosition s < capacity s ->
  call_pre s (CallPushBlock input n gain) ->
  exists s',
    pushBlock s input n gain = Some s' /\
    readPosition (setNumSamplesDelay s' n) = writePosition s /\
    getActualSampleDelay (setNumSamplesDelay s' n) = n.
Proof.
  intros Hwf Hw Hpre.
  destruct (pushBlock_spec s input n gain Hwf ltac:(lia) Hpre)
    as (s' & Hpush & Hw' & _ & _ & _ & _ & _ & Hc & _).
  destruct Hpre as (Hcap & _ & _ & Hn).
  exists s'. split; [exact Hpush|]. split.
  - unfold setNumSamplesDelay. simpl. rewrite Hw', Hc.
    destruct (writePosition s + n <=? capacity s) eqn:E;
      [apply Z.leb_le in E | apply Z.leb_gt in E].
    + rewrite (proj2 (Z.ltb_ge _ _)) by lia. lia.
    + rewrite (proj2 (Z.ltb_lt _ _)) by lia. lia.
  - apply setNumSamplesDelay_delay. rewrite Hc. lia.
Qed.

(** *** [pullBlock] *)

(** X8: under its [jassert]s [pullBlock] returns, and changes neither the
    ring, nor the write cursor, nor the factor bound, nor the number of
    resamplers, nor the shape of the output buffer. *)
Theorem pullBlock_frame s (out : AudioBuffer T) n dt :
  call_pre s (CallPullBlock out n dt) ->
  exists s' out',
    pullBlock s out n dt = Some (s', out') /\
    buffer s' = buffer s /\
    writePosition s' = writePosition s /\
    maxResamplingFactor s' = maxResamplingFactor s /\
    length (resamplers s') = length (resamplers s) /\
    getNumSamples out' = getNumSamples out /\
    getNumChannels out' = getNumChannels out.
Proof.
  intros Hpre.
  destruct (call_pre_pull_runs _ _ _ _ Hpre) as (Hcap & Hb & Hrs).
  destruct (pull_loop s (pullFactor s n dt) n (Z.to_nat (getNumChannels out)) 0
              (resamplers s) out 0)
    as (rs' & out' & u' & Hrun & Hlrs & Hsz & Hlout & _);
    try (unfold getNumChannels in *; lia).
  eexists _, out'. split.
  { unfold pullBlock, for_range. rewrite Hrun. simpl.
    rewrite bool_decide_eq_false_2 by done. reflexivity. }
  simpl. unfold getNumSamples, getNumChannels.
  split; [reflexivity|]. split; [reflexivity|]. split; [reflexivity|].
  split; [exact Hlrs|]. split; [exact Hsz | congruence].
Qed.

(** X9: when the read cursor is not negative and the resampler's count
    does not lead below zero, [pullBlock] leaves the read cursor inside
    the ring. *)
Theorem pullBlock_readPosition_in_range s (out : AudioBuffer T) n dt :
  call_pre s (CallPullBlock out n dt) ->
  exists s' out' used,
    pullBlock s out n dt = Some (s', out') /\
    (ab_channels out = [] -> used = 0) /\
    (ab_channels out <> [] -> last_used s out n (pullFactor s n dt) used) /\
    (0 <= readPosition s + used ->
     0 <= readPosition s' < capacity s').
Proof.
  intros Hpre.
  destruct (call_pre_pull_runs _ _ _ _ Hpre) as (Hcap & Hb & Hrs).
  destruct (pullBlock_runs s out n dt Hcap Hb Hrs)
    as (s' & out' & used & Hpull & _ & Hnil & Hlast & Hr & _ & _ & Hbuf & _).
  exists s', out', used. split; [exact Hpull|]. split; [exact Hnil|].
  split; [exact Hlast|]. intros Hpos.
  assert (Hc : capacity s' = capacity s) by (unfold capacity; congruence).
  assert (Hgt : 0 < capacity s).
  { destruct Hpre as (Hgt & _ & _ & _ & Hn). lia. }
  rewrite Hr, Hc, Z.rem_mod_nonneg by lia.
  apply Z.mod_pos_bound. exact Hgt.
Qed.

(** X10: a pull whose consumed count lies between zero and the buffered
    delay lowers the delay snapshot by exactly that count. *)
Theorem pullBlock_shrinks_delay s (out : AudioBuffer T) n dt :
  call_pre s (CallPullBlock out n dt) ->
  cursors_in_range s ->
  exists s' out' used,
    pullBlock s out n dt = Some (s', out') /\
    (ab_channels out = [] -> used = 0) /\
    (ab_channels out <> [] -> last_used s out n (pullFactor s n dt) used) /\
    (0 <= used <= delayOf (writePosition s) (readPosition s) (capacity s) ->
     getActualSampleDelay s'
       = delayOf (writePosition s) (readPosition s) (capacity s) - used).
Proof.
  intros Hpre [Hw Hrd].
  destruct (call_pre_pull_runs _ _ _ _ Hpre) as (Hcap & Hb & Hrs).
  destruct (pullBlock_runs s out n dt Hcap Hb Hrs)
    as (s' & out' & used & Hpull & _ & Hnil & Hlast & Hr & Hd & Hw' & Hbuf & _).
  exists s', out', used. split; [exact Hpull|]. split; [exact Hnil|].
  split; [exact Hlast|]. intros Hu.
  assert (Hc : capacity s' = capacity s) by (unfold capacity; congruence).
  unfold getActualSampleDelay. rewrite Hd, Hw', Hr, Hc.
  rewrite Z.rem_mod_nonneg by lia.
  revert Hu. unfold delayOf.
  destruct (writePosition s <? readPosition s) eqn:E1;
    [apply Z.ltb_lt in E1 | apply Z.ltb_ge in E1]; intros Hu.
  - destruct (decide (readPosition s + used < capacity s)) as [Hlo|Hhi].
    + rewrite Z.mod_small by lia.
      rewrite (proj2 (Z.ltb_lt _ _)) by lia. lia.
    + replace ((readPosition s + used) mod capacity s)
        with (readPosition s + used - capacity s)
        by (apply Z.mod_unique with 1; lia).
      rewrite (proj2 (Z.ltb_ge _ _)) by lia. lia.
  - rewrite Z.mod_small by lia.
    rewrite (proj2 (Z.ltb_ge _ _)) by lia. lia.
Qed.

(** *** [setSize] *)

Lemma add_resamplers_app k (rs : list R) :
  add_resamplers k rs = rs ++ replicate k interp_new.
Proof.
  revert rs. induction k as [|k IH]; intros rs; simpl.
  - symmetry. apply app_nil_r.
  - rewrite IH, <- app_assoc. reflexivity.
Qed.

Lemma remove_resamplers_take k (rs : list R) :
  remove_resamplers k rs = take (length rs - k) rs.
Proof.
  revert rs. induction k as [|k IH]; intros rs; simpl.
  - rewrite Nat.sub_0_r, take_ge by lia. reflexivity.
  - rewrite IH, removelast_firstn_len, length_take, take_take.
    f_equal. lia.
Qed.

Lemma resize_pool_pool_for nc (rs : list R) :
  resize_pool nc rs = pool_for nc rs.
Proof.
  unfold resize_pool, pool_for.
  rewrite remove_resamplers_take, add_resamplers_app, length_app,
    length_replicate.
  destruct (decide (length rs <= Z.to_nat nc)%nat) as [Hle|Hgt].
  - rewrite (take_ge rs) by lia. apply take_ge.
    rewrite length_app, length_replicate. lia.
  - replace (Z.to_nat nc - length rs)%nat with O by lia. simpl.
    rewrite !app_nil_r. f_equal. lia.
Qed.

(** X11: [setSize] keeps the first [numChannels] resamplers, with their
    histories, and appends new ones when there were fewer; it resets them
    all exactly when the write cursor does not fit the new capacity. *)
Theorem setSize_resampler_pool s nc ns sr :
  0 <= nc -> 0 <= ns ->
  exists s',
    setSize s nc ns sr = Some s' /\
    length (resamplers s') = Z.to_nat nc /\
    resamplers s'
      = (if ns <=? writePosition s
         then interp_reset <$> pool_for nc (resamplers s)
         else pool_for nc (resamplers s)).
Proof.
  intros Hnc Hns. unfold setSize.
  rewrite bool_decide_eq_true_2 by done. simpl.
  rewrite resize_pool_pool_for.
  eexists. split; [reflexivity|].
  destruct (ns <=? writePosition s); simpl;
    rewrite ?length_fmap, <- resize_pool_pool_for, length_resize_pool; auto.
Qed.

(** X12: after [setSize] the ring has the requested capacity and channel
    count, the read cursor and the factor bound are as before, and a write
    cursor that was not negative lies inside a ring that is not empty. *)
Theorem setSize_dimensions s nc ns sr :
  0 <= nc -> 0 <= ns ->
  exists s',
    setSize s nc ns sr = Some s' /\
    capacity s' = ns /\
    getNumChannels (buffer s') = nc /\
    readPosition s' = readPosition s /\
    maxResamplingFactor s' = maxResamplingFactor s /\
    (0 <= writePosition s -> 0 < ns -> 0 <= writePosition s' < ns).
Proof.
  intros Hnc Hns.
  assert (Hdim : ab_size (ab_setSize (buffer s) nc ns) = ns /\
                 length (ab_channels (ab_setSize (buffer s) nc ns))
                 = Z.to_nat nc).
  { unfold ab_setSize. case_bool_decide as Hsame; simpl.
    - destruct Hsame as [-> ->]. unfold getNumChannels, getNumSamples.
      split; [reflexivity | lia].
    - split; [reflexivity | apply length_replicate]. }
  destruct Hdim as [Hsz Hlen].
  unfold setSize. rewrite bool_decide_eq_true_2 by done. simpl.
  eexists. split; [reflexivity|].
  destruct (ns <=? writePosition s) eqn:E;
    [apply Z.leb_le in E | apply Z.leb_gt in E];
    unfold capacity, getNumSamples, getNumChannels; simpl;
    rewrite ?length_fmap, Hsz, Hlen;
    (split; [reflexivity|]); (split; [lia|]); (split; [reflexivity|]);
    (split; [reflexivity|]); lia.
Qed.

(** X13: [setSize] with the dimensions the buffer already has, on a write
    cursor inside the ring, only recomputes the delay snapshot: samples,
    cursors and resampler histories are untouched. *)
Theorem setSize_same_dimensions s sr :
  shape_ok s ->
  writePosition s < capacity s ->
  setSize s (getNumChannels (buffer s)) (capacity s) sr
  = Some (updateActualSampleDelay s).
Proof.
  intros (Hwf & Hch & Hw) Hlt. unfold setSize.
  rewrite bool_decide_eq_true_2
    by (destruct Hwf; unfold capacity, getNumChannels, getNumSamples; lia).
  simpl. rewrite (proj2 (Z.leb_gt _ _) Hlt).
  rewrite resize_pool_pool_for. unfold pool_for.
  rewrite take_ge by lia.
  replace (Z.to_nat (getNumChannels (buffer s)) - length (resamplers s))%nat
    with O by lia.
  simpl. rewrite app_nil_r.
  unfold ab_setSize, capacity.
  rewrite bool_decide_eq_true_2 by done.
  destruct s. reflexivity.
Qed.

(** *** No guard against overrun and underrun *)

(** X19: [pushBlock] does not look at the read cursor.  When the buffered
    delay plus [numSamples] exceeds [N], the sample under the read cursor
    is overwritten by the block, and the delay snapshot becomes
    [delay + numSamples - N]. *)
Theorem pushBlock_overruns_reader s (input : AudioBuffer T) n gain :
  wf_buffer (buffer s) ->
  cursors_in_range s ->
  call_pre s (CallPushBlock input n gain) ->
  capacity s < delayOf (writePosition s) (readPosition s) (capacity s) + n ->
  exists s',
    pushBlock s input n gain = Some s' /\
    getActualSampleDelay s'
      = delayOf (writePosition s) (readPosition s) (capacity s) + n
        - capacity s /\
    (forall (c : nat) ring, ab_channels (buffer s) !! c = Some ring ->
       exists src ring' x,
         ab_channels input !! c = Some src /\
         ab_channels (buffer s') !! c = Some ring' /\
         zget src (capacity s
                   - delayOf (writePosition s) (readPosition s) (capacity s))
           = Some x /\
         zget ring' (readPosition s) = Some (s_mul x gain)).
Proof.
  intros Hwf [Hw Hr] Hpre Hover.
  destruct (pushBlock_spec s input n gain Hwf ltac:(lia) Hpre)
    as (s' & Hpush & Hw' & _ & Hd & _ & _ & _ & _ & _ & Hring).
  destruct Hpre as (Hcap & _ & _ & Hn).
  exists s'. split; [exact Hpush|]. split.
  - unfold getActualSampleDelay. rewrite Hd, Hw'. revert Hover. unfold delayOf.
    destruct (writePosition s + n <=? capacity s) eqn:E1;
      [apply Z.leb_le in E1 | apply Z.leb_gt in E1];
      destruct (writePosition s <? readPosition s) eqn:E2;
      [apply Z.ltb_lt in E2 | apply Z.ltb_ge in E2
      |apply Z.ltb_lt in E2 | apply Z.ltb_ge in E2];
      match goal with |- context [?a <? ?b] =>
        destruct (a <? b) eqn:E3;
        [apply Z.ltb_lt in E3 | apply Z.ltb_ge in E3] end; lia.
  - intros c ring Ering.
    destruct (Hring c ring Ering) as (src & ring' & Hsrc & Ering' & _ & Hin & _).
    set (d := delayOf (writePosition s) (readPosition s) (capacity s)) in *.
    assert (Hd' : d = (writePosition s - readPosition s) mod capacity s
                  /\ 0 <= d < capacity s)
      by (exact (delayOf_mod _ _ _ Hw Hr)).
    destruct Hd' as [Hdm Hdr].
    destruct (Hin (capacity s - d)) as (o & x & _ & Hx & Hw2); [lia|].
    exists src, ring', x. split; [exact Hsrc|]. split; [exact Ering'|].
    split; [exact Hx|]. rewrite <- Hw2. f_equal.
    unfold d, delayOf.
    destruct (writePosition s <? readPosition s) eqn:E;
      [apply Z.ltb_lt in E | apply Z.ltb_ge in E].
    + apply Z.mod_unique with 0; lia.
    + apply Z.mod_unique with 1; lia.
Qed.

(** X20: [pullBlock] does not check that enough samples are buffered.
    When the resampler consumes more than the buffered delay (and less
    than a whole ring more), the delay snapshot becomes
    [delay - used + N]. *)
Theorem pullBlock_underrun s (out : AudioBuffer T) n dt :
  call_pre s (CallPullBlock out n dt) ->
  cursors_in_range s ->
  exists s' out' used,
    pullBlock s out n dt = Some (s', out') /\
    (ab_channels out = [] -> used = 0) /\
    (ab_channels out <> [] -> last_used s out n (pullFactor s n dt) used) /\
    (delayOf (writePosition s) (readPosition s) (capacity s) < used
       < delayOf (writePosition s) (readPosition s) (capacity s) + capacity s ->
     getActualSampleDelay s'
       = delayOf (writePosition s) (readPosition s) (capacity s) - used
         + capacity s).
Proof.
  intros Hpre [Hw Hrd].
  destruct (call_pre_pull_runs _ _ _ _ Hpre) as (Hcap & Hb & Hrs).
  destruct (pullBlock_runs s out n dt Hcap Hb Hrs)
    as (s' & out' & used & Hpull & _ & Hnil & Hlast & Hr & Hd & Hw' & Hbuf & _).
  exists s', out', used. split; [exact Hpull|]. split; [exact Hnil|].
  split; [exact Hlast|]. intros Hu.
  assert (Hc : capacity s' = capacity s) by (unfold capacity; congruence).
  destruct (delayOf_mod (writePosition s) (readPosition s) (capacity s) Hw Hrd)
    as [Hdm Hdr].
  unfold getActualSampleDelay. rewrite Hd, Hw', Hr, Hc.
  rewrite Z.rem_mod_nonneg by lia.
  destruct (delayOf_mod (writePosition s)
              ((readPosition s + used) mod capacity s) (capacity s) Hw)
    as [-> _]; [apply Z.mod_pos_bound; lia|].
  rewrite Zminus_mod_idemp_r.
  replace (writePosition s - (readPosition s + used))
    with (writePosition s - readPosition s - used) by lia.
  rewrite <- Zminus_mod_idemp_l, <- Hdm.
  symmetry. apply Z.mod_unique with (-1); lia.
Qed.

(** *** The clamp inside and outside its bounds *)

Lemma ltb_true_leb x y : F64.ltb x y = true -> F64.leb x y = true.
Proof.
  unfold F64.ltb, F64.leb.
  rewrite FloatAxioms.ltb_spec, FloatAxioms.leb_spec. unfold SFltb, SFleb.
  destruct (SFcompare (Prim2SF x) (Prim2SF y)) as [[]|]; congruence.
Qed.

Lemma leb_true_ltb_false x y : F64.leb x y = true -> F64.ltb y x = false.
Proof.
  intros Hle. destruct (F64.ltb y x) eqn:E; [|reflexivity].
  rewrite (F64Facts.ltb_true_leb_false _ _ E) in Hle. discriminate.
Qed.

(** X18: a factor inside [[0.0001, maxResamplingFactor]] is applied as
    computed; one below [0.0001] is replaced by [0.0001] when the upper
    bound is at least that; one above [maxResamplingFactor] is replaced by
    [maxResamplingFactor]. *)
Theorem pullFactor_cases s n dt :
  (F64.leb minFactor (rawFactor s n dt) = true ->
   F64.leb (rawFactor s n dt) (maxResamplingFactor s) = true ->
   pullFactor s n dt = rawFactor s n dt) /\
  (F64.ltb (rawFactor s n dt) minFactor = true ->
   F64.leb minFactor (maxResamplingFactor s) = true ->
   pullFactor s n dt = minFactor) /\
  (F64.ltb (maxResamplingFactor s) (rawFactor s n dt) = true ->
   pullFactor s n dt = maxResamplingFactor s).
Proof.
  unfold pullFactor, clampFactor.
  set (raw := rawFactor s n dt). set (mx := maxResamplingFactor s).
  split; [|split].
  - intros Hlo Hhi.
    rewrite (leb_true_ltb_false _ _ Hlo), (leb_true_ltb_false _ _ Hhi).
    reflexivity.
  - intros Hlo Hmx. rewrite Hlo, (leb_true_ltb_false _ _ Hmx). reflexivity.
  - intros Hhi. destruct (F64.ltb raw minFactor) eqn:Elo.
    + rewrite (F64Facts.ltb_leb_trans _ _ _ Hhi (ltb_true_leb _ _ Elo)).
      reflexivity.
    + rewrite Hhi. reflexivity.
Qed.

End MoreProperties.

(** ** Closed examples *)

Ltac by_eval :=
  vm_compute;
  repeat match goal with
         | |- _ /\ _ => split
         | |- Forall _ _ => constructor
         | |- True => exact I
         | |- _ = _ => reflexivity
         | |- _ -> False => let E := fresh in intro E; discriminate E
         end.

Lemma reachable_after cs :
  pre_run fresh cs -> is_Some (run fresh cs) -> reachable (after cs).
Proof.
  intros Hpre [s Hs]. unfold after. rewrite Hs. simpl.
  exact (run_reachable cs fresh s (reachable_new 0) Hpre Hs).
Qed.

Lemma reachable_w4 : reachable (after calls_w4).
Proof. apply reachable_after; [by_eval | eexists; vm_compute; reflexivity]. Qed.

Lemma reachable_w6_r5 : reachable (after calls_w6_r5).
Proof. apply reachable_after; [by_eval | eexists; vm_compute; reflexivity]. Qed.

Lemma reachable_w2_r6 : reachable (after calls_w2_r6).
Proof. apply reachable_after; [by_eval | eexists; vm_compute; reflexivity]. Qed.

Lemma reachable_low_max : reachable (after calls_low_max).
Proof. apply reachable_after; [by_eval | eexists; vm_compute; reflexivity]. Qed.

(** C1 (the code differs): a resize below the write cursor sets the write
    cursor to zero and recomputes the delay, and leaves the read cursor
    where it was.  From capacity 8, write cursor 6 and read cursor 5,
    [setSize (1, 4, 44100)] ends with read cursor 5 in a ring of 4 samples
    and a delay snapshot of -1. *)
Theorem setSize_hard_reset_keeps_readPosition :
  reachable (after calls_w6_r5) /\
  capacity (after calls_w6_r5) = 8 /\
  writePosition (after calls_w6_r5) = 6 /\
  readPosition (after calls_w6_r5) = 5 /\
  call_pre (after calls_w6_r5) (CallSetSize 1 4 44100%float) /\
  exists s',
    setSize (after calls_w6_r5) 1 4 44100%float = Some s' /\
    capacity s' = 4 /\
    writePosition s' = 0 /\
    readPosition s' = 5 /\
    getActualSampleDelay s' = -1 /\
    ab_channels (buffer s') = [[0; 0; 0; 0]%float] /\
    resamplers s' = [O].
Proof.
  split; [exact reachable_w6_r5|].
  do 4 (split; [by_eval|]).
  eexists. split; [vm_compute; reflexivity|]. by_eval.
Qed.

(** C2 (the code differs): the cursors leave [[0, N)].  A [pushBlock] that
    ends exactly at the end of the ring leaves the write cursor at [N]; a
    [setSize] that shrinks the ring below the read cursor leaves the read
    cursor where it was. *)
Theorem cursors_leave_range :
  (reachable (after calls_w4) /\
   cursors_in_range (after calls_w4) /\
   call_pre (after calls_w4) (CallPushBlock ramp4 4 1%float) /\
   exists s',
     pushBlock (after calls_w4) ramp4 4 1%float = Some s' /\
     writePosition s' = capacity s' /\
     ~ cursors_in_range s') /\
  (reachable (after calls_w2_r6) /\
   cursors_in_range (after calls_w2_r6) /\
   call_pre (after calls_w2_r6) (CallSetSize 1 4 44100%float) /\
   exists s',
     setSize (after calls_w2_r6) 1 4 44100%float = Some s' /\
     capacity s' = 4 /\
     readPosition s' = 6 /\
     ~ cursors_in_range s').
Proof.
  split.
  - split; [exact reachable_w4|]. do 2 (split; [by_eval|]).
    eexists. split; [vm_compute; reflexivity|]. split; [by_eval|].
    intros [[_ Hw] _]. vm_compute in Hw. discriminate Hw.
  - split; [exact reachable_w2_r6|]. do 2 (split; [by_eval|]).
    eexists. split; [vm_compute; reflexivity|]. do 2 (split; [by_eval|]).
    intros [_ [_ Hr]]. vm_compute in Hr. discriminate Hr.
Qed.

(** C6 (the code differs): with capacity 8 and write cursor 4, pushing 4
    samples writes them to the ring and leaves the write cursor at 8,
    where [(4 + 4) mod 8] is 0. *)
Theorem pushBlock_to_ring_end :
  reachable (after calls_w4) /\
  cursors_in_range (after calls_w4) /\
  call_pre (after calls_w4) (CallPushBlock ramp4 4 1%float) /\
  exists s',
    pushBlock (after calls_w4) ramp4 4 1%float = Some s' /\
    ab_channels (buffer s') = [[1; 2; 3; 4; 1; 2; 3; 4]%float] /\
    readPosition s' = readPosition (after calls_w4) /\
    writePosition s' = 8 /\
    (writePosition (after calls_w4) + 4) mod capacity (after calls_w4) = 0 /\
    getActualSampleDelay s' = 8.
Proof.
  split; [exact reachable_w4|]. do 2 (split; [by_eval|]).
  eexists. split; [vm_compute; reflexivity|]. by_eval.
Qed.

(** C4 as stated fails: with [maxResamplingFactor] set to [0.00001] the
    applied factor is [0.00001], below [0.0001]; and a pull of no samples
    at the target delay applies NaN, which is in no interval. *)
Lemma pullBlock_factor_outside_bounds :
  (reachable (after calls_low_max) /\
   call_pre (after calls_low_max) (CallPullBlock silence4 4 0) /\
   is_Some (pullBlock (after calls_low_max) silence4 4 0) /\
   pullFactor (after calls_low_max) 4 0 = 0.00001%float /\
   ~ (F64.leb minFactor (pullFactor (after calls_low_max) 4 0) = true /\
      F64.leb (pullFactor (after calls_low_max) 4 0)
              (maxResamplingFactor (after calls_low_max)) = true)) /\
  (reachable (after calls_w4) /\
   call_pre (after calls_w4) (CallPullBlock silence4 0 4) /\
   is_Some (pullBlock (after calls_w4) silence4 0 4) /\
   F64.is_nan (pullFactor (after calls_w4) 0 4) = true /\
   ~ (F64.leb minFactor (pullFactor (after calls_w4) 0 4) = true /\
      F64.leb (pullFactor (after calls_w4) 0 4)
              (maxResamplingFactor (after calls_w4)) = true)).
Proof.
  split.
  - split; [exact reachable_low_max|]. split; [by_eval|].
    split; [eexists; vm_compute; reflexivity|]. split; [by_eval|].
    intros [Hlo _]. vm_compute in Hlo. discriminate Hlo.
  - split; [exact reachable_w4|]. split; [by_eval|].
    split; [eexists; vm_compute; reflexivity|]. split; [by_eval|].
    intros [Hlo _]. vm_compute in Hlo. discriminate Hlo.
Qed.

(** *** The theorems at a concrete call *)

Lemma pullBlock_factor_formula_witness :
  call_pre (after calls_w4) (CallPullBlock silence4 4 0) /\
  cursors_in_range (after calls_w4) /\
  exists s' out',
    pullBlock (after calls_w4) silence4 4 0 = Some (s', out') /\
    runs_with (after calls_w4) silence4 4
      (clampFactor (maxResamplingFactor (after calls_w4))
         (1 + F64.of_int
                (((writePosition (after calls_w4)
                   - readPosition (after calls_w4))
                  mod capacity (after calls_w4) - 4) - 0)
              / (F64.of_int 4 * 8))%float)
      s' out'.
Proof.
  split; [by_eval|]. split; [by_eval|].
  apply (pullBlock_factor_formula (after calls_w4) silence4 4 0); by_eval.
Defined.

Lemma pullBlock_factor_clamped_witness :
  call_pre (after calls_w4) (CallPullBlock silence4 4 0) /\
  F64.leb minFactor (maxResamplingFactor (after calls_w4)) = true /\
  F64.is_nan (rawFactor (after calls_w4) 4 0) = false /\
  exists s' out',
    pullBlock (after calls_w4) silence4 4 0 = Some (s', out') /\
    runs_with (after calls_w4) silence4 4 (pullFactor (after calls_w4) 4 0)
              s' out' /\
    F64.leb minFactor (pullFactor (after calls_w4) 4 0) = true /\
    F64.leb (pullFactor (after calls_w4) 4 0)
            (maxResamplingFactor (after calls_w4)) = true.
Proof.
  split; [by_eval|]. split; [by_eval|]. split; [by_eval|].
  apply (pullBlock_factor_clamped (after calls_w4) silence4 4 0); by_eval.
Defined.

Lemma pullBlock_clamp_order_witness :
  call_pre (after calls_low_max) (CallPullBlock silence4 4 0) /\
  exists s' out' f,
    pullBlock (after calls_low_max) silence4 4 0 = Some (s', out') /\
    runs_with (after calls_low_max) silence4 4 f s' out' /\
    f = std_min
          (std_max
             (1 + F64.of_int ((currentDelay (after calls_low_max) - 4) - 0)
                  / (F64.of_int 4 * 8))%float
             minFactor)
          (maxResamplingFactor (after calls_low_max)) /\
    F64.ltb (maxResamplingFactor (after calls_low_max)) f = false /\
    (F64.ltb (maxResamplingFactor (after calls_low_max)) minFactor = true ->
     F64.leb minFactor f = false).
Proof.
  split; [by_eval|].
  apply (pullBlock_clamp_order (after calls_low_max) silence4 4 0); by_eval.
Defined.

Lemma pullBlock_advances_readPosition_witness :
  call_pre (after calls_w4) (CallPullBlock silence4 4 0) /\
  ab_channels silence4 <> [] /\
  exists s' out' used,
    pullBlock (after calls_w4) silence4 4 0 = Some (s', out') /\
    last_used (after calls_w4) silence4 4 (pullFactor (after calls_w4) 4 0) used /\
    readPosition s'
      = Z.rem (readPosition (after calls_w4) + used) (capacity (after calls_w4)) /\
    (0 <= readPosition (after calls_w4) + used ->
     readPosition s'
       = (readPosition (after calls_w4) + used) mod capacity (after calls_w4)) /\
    writePosition s' = writePosition (after calls_w4) /\
    capacity s' = capacity (after calls_w4) /\
    getActualSampleDelay s'
      = delayOf (writePosition (after calls_w4)) (readPosition s')
                (capacity (after calls_w4)).
Proof.
  split; [by_eval|]. split; [discriminate|].
  apply (pullBlock_advances_readPosition (after calls_w4) silence4 4 0);
    [by_eval | discriminate].
Defined.

Lemma setNumSamplesDelay_jump_witness :
  0 <= 6 < capacity (after calls_w4) /\
  0 <= writePosition (after calls_w4) < capacity (after calls_w4) /\
  readPosition (setNumSamplesDelay (after calls_w4) 6)
    = (writePosition (after calls_w4) - 6) mod capacity (after calls_w4) /\
  getActualSampleDelay (setNumSamplesDelay (after calls_w4) 6) = 6.
Proof.
  split; [by_eval|]. split; [by_eval|].
  apply (setNumSamplesDelay_jump (after calls_w4) 6); by_eval.
Defined.

Lemma addToPushedBlock_overlay_witness :
  wf_buffer (buffer (after calls_w2_r6)) /\
  0 <= writePosition (after calls_w2_r6) <= capacity (after calls_w2_r6) /\
  4 < capacity (after calls_w2_r6) /\
  getNumChannels (buffer (after calls_w2_r6)) = getNumChannels ramp4 /\
  block_ok ramp4 4 /\
  exists s',
    addToPushedBlock (after calls_w2_r6) ramp4 4 1%float = Some s' /\
    writePosition s' = writePosition (after calls_w2_r6) /\
    ab_channels (buffer s') = [[6; 8; 3; 4; 1; 2; 2; 4]%float].
Proof.
  split; [by_eval|]. split; [by_eval|]. split; [by_eval|].
  split; [by_eval|]. split; [by_eval|].
  destruct (addToPushedBlock_overlay (after calls_w2_r6) ramp4 4 1%float)
    as (s' & Hadd & Hw & _); try by_eval.
  exists s'. split; [exact Hadd|]. split; [exact Hw|].
  vm_compute in Hadd. injection Hadd as <-. reflexivity.
Defined.

(** *** The further properties at a concrete call *)

Lemma updateActualSampleDelay_mod_witness :
  cursors_in_range (after calls_w2_r6) /\
  getActualSampleDelay (updateActualSampleDelay (after calls_w2_r6))
    = (writePosition (after calls_w2_r6) - readPosition (after calls_w2_r6))
        mod capacity (after calls_w2_r6) /\
  0 <= getActualSampleDelay (updateActualSampleDelay (after calls_w2_r6))
    < capacity (after calls_w2_r6).
Proof.
  split; [by_eval|].
  apply (updateActualSampleDelay_mod (after calls_w2_r6)); by_eval.
Defined.

Lemma exec_delay_consistent_witness :
  exec (after calls_w4) (CallPushBlock ramp4 4 1%float) = Some (after calls_w8) /\
  recomputes_delay (CallPushBlock ramp4 4 1%float) = true /\
  delay_consistent (after calls_w8).
Proof.
  split; [by_eval|]. split; [reflexivity|].
  apply (exec_delay_consistent (after calls_w4) (CallPushBlock ramp4 4 1%float));
    [by_eval | right; reflexivity].
Defined.

Lemma pushBlock_writes_block_witness :
  wf_buffer (buffer (after calls_w2_r6)) /\
  0 <= writePosition (after calls_w2_r6) <= capacity (after calls_w2_r6) /\
  call_pre (after calls_w2_r6) (CallPushBlock ramp4 4 2%float) /\
  exists s',
    pushBlock (after calls_w2_r6) ramp4 4 2%float = Some s' /\
    readPosition s' = readPosition (after calls_w2_r6) /\
    ab_channels (buffer s') = [[3; 4; 2; 4; 6; 8; 1; 2]%float].
Proof.
  split; [by_eval|]. split; [by_eval|]. split; [by_eval|].
  destruct (pushBlock_writes_block (after calls_w2_r6) ramp4 4 2%float)
    as (s' & Hpush & Hr & _); try by_eval.
  exists s'. split; [exact Hpush|]. split; [exact Hr|].
  vm_compute in Hpush. injection Hpush as <-. reflexivity.
Defined.

Lemma pushBlock_grows_delay_witness :
  wf_buffer (buffer (after calls_w4)) /\
  cursors_in_range (after calls_w4) /\
  call_pre (after calls_w4) (CallPushBlock ramp4 2 1%float) /\
  delayOf (writePosition (after calls_w4)) (readPosition (after calls_w4))
          (capacity (after calls_w4)) + 2 < capacity (after calls_w4) /\
  exists s',
    pushBlock (after calls_w4) ramp4 2 1%float = Some s' /\
    getActualSampleDelay s'
      = delayOf (writePosition (after calls_w4)) (readPosition (after calls_w4))
                (capacity (after calls_w4)) + 2.
Proof.
  split; [by_eval|]. split; [by_eval|]. split; [by_eval|]. split; [by_eval|].
  apply (pushBlock_grows_delay (after calls_w4) ramp4 2 1%float); by_eval.
Defined.

Lemma pushBlock_empty_block_witness :
  wf_buffer (buffer (after calls_w8)) /\
  0 <= writePosition (after calls_w8) <= capacity (after calls_w8) /\
  call_pre (after calls_w8) (CallPushBlock ramp4 0 1%float) /\
  exists s',
    pushBlock (after calls_w8) ramp4 0 1%float = Some s' /\
    buffer s' = buffer (after calls_w8) /\
    writePosition s' = writePosition (after calls_w8) /\
    readPosition s' = readPosition (after calls_w8).
Proof.
  split; [by_eval|]. split; [by_eval|]. split; [by_eval|].
  apply (pushBlock_empty_block (after calls_w8) ramp4 1%float); by_eval.
Defined.

Lemma pushBlock_then_addToPushedBlock_witness :
  wf_buffer (buffer (after calls_w2_r6)) /\
  0 <= writePosition (after calls_w2_r6) <= capacity (after calls_w2_r6) /\
  call_pre (after calls_w2_r6) (CallPushBlock ramp4 4 1%float) /\
  call_pre (after calls_w2_r6) (CallAddToPushedBlock ramp4_twice 4 1%float) /\
  exists s1 s2,
    pushBlock (after calls_w2_r6) ramp4 4 1%float = Some s1 /\
    addToPushedBlock s1 ramp4_twice 4 1%float = Some s2 /\
    ab_channels (buffer s2) = [[3; 4; 11; 22; 33; 44; 1; 2]%float].
Proof.
  split; [by_eval|]. split; [by_eval|]. split; [by_eval|]. split; [by_eval|].
  destruct (pushBlock_then_addToPushedBlock (after calls_w2_r6)
              ramp4 ramp4_twice 4 1%float 1%float)
    as (s1 & s2 & Hpush & Hadd & _); try by_eval.
  exists s1, s2. split; [exact Hpush|]. split; [exact Hadd|].
  vm_compute in Hpush. injection Hpush as <-.
  vm_compute in Hadd. injection Hadd as <-. reflexivity.
Defined.

Lemma pushBlock_then_setNumSamplesDelay_witness :
  wf_buffer (buffer (after calls_w2_r6)) /\
  0 <= writePosition (after calls_w2_r6) < capacity (after calls_w2_r6) /\
  call_pre (after calls_w2_r6) (CallPushBlock ramp4 4 1%float) /\
  exists s',
    pushBlock (after calls_w2_r6) ramp4 4 1%float = Some s' /\
    readPosition (setNumSamplesDelay s' 4) = writePosition (after calls_w2_r6) /\
    getActualSampleDelay (setNumSamplesDelay s' 4) = 4.
Proof.
  split; [by_eval|]. split; [by_eval|]. split; [by_eval|].
  apply (pushBlock_then_setNumSamplesDelay (after calls_w2_r6) ramp4 4 1%float);
    by_eval.
Defined.

Lemma pullBlock_frame_witness :
  call_pre (after calls_w4) (CallPullBlock silence4 4 0) /\
  exists s' out',
    pullBlock (after calls_w4) silence4 4 0 = Some (s', out') /\
    buffer s' = buffer (after calls_w4) /\
    writePosition s' = writePosition (after calls_w4) /\
    maxResamplingFactor s' = maxResamplingFactor (after calls_w4) /\
    length (resamplers s') = length (resamplers (after calls_w4)) /\
    getNumSamples out' = getNumSamples silence4 /\
    getNumChannels out' = getNumChannels silence4.
Proof.
  split; [by_eval|].
  apply (pullBlock_frame (after calls_w4) silence4 4 0); by_eval.
Defined.

Lemma pullBlock_readPosition_in_range_witness :
  call_pre (after calls_w2_r6) (CallPullBlock silence4 4 0) /\
  exists s' out' used,
    pullBlock (after calls_w2_r6) silence4 4 0 = Some (s', out') /\
    (ab_channels silence4 = [] -> used = 0) /\
    (ab_channels silence4 <> [] ->
     last_used (after calls_w2_r6) silence4 4
               (pullFactor (after calls_w2_r6) 4 0) used) /\
    (0 <= readPosition (after calls_w2_r6) + used ->
     0 <= readPosition s' < capacity s').
Proof.
  split; [by_eval|].
  apply (pullBlock_readPosition_in_range (after calls_w2_r6) silence4 4 0);
    by_eval.
Defined.

Lemma pullBlock_shrinks_delay_witness :
  call_pre (after calls_w4) (CallPullBlock silence4 4 0) /\
  cursors_in_range (after calls_w4) /\
  exists s' out' used,
    pullBlock (after calls_w4) silence4 4 0 = Some (s', out') /\
    (ab_channels silence4 = [] -> used = 0) /\
    (ab_channels silence4 <> [] ->
     last_used (after calls_w4) silence4 4 (pullFactor (after calls_w4) 4 0)
               used) /\
    (0 <= used <= delayOf (writePosition (after calls_w4))
                          (readPosition (after calls_w4))
                          (capacity (after calls_w4)) ->
     getActualSampleDelay s'
       = delayOf (writePosition (after calls_w4))
                 (readPosition (after calls_w4))
                 (capacity (after calls_w4)) - used).
Proof.
  split; [by_eval|]. split; [by_eval|].
  apply (pullBlock_shrinks_delay (after calls_w4) silence4 4 0); by_eval.
Defined.

Lemma setSize_resampler_pool_witness :
  0 <= 3 /\ 0 <= 16 /\
  exists s',
    setSize (after calls_w4) 3 16 44100%float = Some s' /\
    length (resamplers s') = Z.to_nat 3 /\
    resamplers s'
      = (if 16 <=? writePosition (after calls_w4)
         then interp_reset (T:=PrimFloat.float)
                <$> pool_for (T:=PrimFloat.float) 3 (resamplers (after calls_w4))
         else pool_for (T:=PrimFloat.float) 3 (resamplers (after calls_w4))).
Proof.
  split; [lia|]. split; [lia|].
  apply (setSize_resampler_pool (after calls_w4) 3 16 44100%float); lia.
Defined.

Lemma setSize_dimensions_witness :
  0 <= 2 /\ 0 <= 4 /\
  exists s',
    setSize (after calls_w6_r5) 2 4 44100%float = Some s' /\
    capacity s' = 4 /\
    getNumChannels (buffer s') = 2 /\
    readPosition s' = readPosition (after calls_w6_r5) /\
    maxResamplingFactor s' = maxResamplingFactor (after calls_w6_r5) /\
    (0 <= writePosition (after calls_w6_r5) -> 0 < 4 ->
     0 <= writePosition s' < 4).
Proof.
  split; [lia|]. split; [lia|].
  apply (setSize_dimensions (after calls_w6_r5) 2 4 44100%float); lia.
Defined.

Lemma setSize_same_dimensions_witness :
  shape_ok (after calls_w2_r6) /\
  writePosition (after calls_w2_r6) < capacity (after calls_w2_r6) /\
  setSize (after calls_w2_r6) (getNumChannels (buffer (after calls_w2_r6)))
          (capacity (after calls_w2_r6)) 48000%float
  = Some (updateActualSampleDelay (after calls_w2_r6)).
Proof.
  split; [by_eval|]. split; [by_eval|].
  apply (setSize_same_dimensions (after calls_w2_r6) 48000%float); by_eval.
Defined.

Lemma setSize_hard_reset_witness :
  0 <= 2 /\ 0 <= 4 /\ 4 <= writePosition (after calls_w6_r5) /\
  exists s',
    setSize (after calls_w6_r5) 2 4 44100%float = Some s' /\
    writePosition s' = 0 /\
    readPosition s' = readPosition (after calls_w6_r5) /\
    capacity s' = 4 /\
    ab_channels (buffer s') = replicate (Z.to_nat 2) (zeros 4) /\
    resamplers s'
      = interp_reset (T:=PrimFloat.float)
          <$> resize_pool (T:=PrimFloat.float) 2
                (resamplers (after calls_w6_r5)) /\
    numDelaySamples s' = delayOf 0 (readPosition (after calls_w6_r5)) 4 /\
    maxResamplingFactor s' = maxResamplingFactor (after calls_w6_r5).
Proof.
  split; [lia|]. split; [lia|]. split; [by_eval|].
  apply (setSize_hard_reset (after calls_w6_r5) 2 4 44100%float);
    [lia | lia | by_eval].
Defined.

Lemma reachable_shape_ok_witness :
  reachable (after calls_w8) /\ shape_ok (after calls_w8).
Proof.
  assert (Hreach : reachable (after calls_w8)).
  { apply reachable_after; [by_eval | eexists; vm_compute; reflexivity]. }
  split; [exact Hreach|].
  apply (reachable_shape_ok (after calls_w8)). exact Hreach.
Defined.

Lemma pushBlock_writePosition_mod_witness :
  wf_buffer (buffer (after calls_w2_r6)) /\
  0 <= writePosition (after calls_w2_r6) <= capacity (after calls_w2_r6) /\
  call_pre (after calls_w2_r6) (CallPushBlock ramp4 4 1%float) /\
  writePosition (after calls_w2_r6) + 4 <> capacity (after calls_w2_r6) /\
  pushBlock (after calls_w2_r6) ramp4 4 1%float = Some (after calls_w6_wrapped) /\
  writePosition (after calls_w6_wrapped)
    = (writePosition (after calls_w2_r6) + 4) mod capacity (after calls_w2_r6).
Proof.
  split; [by_eval|]. split; [by_eval|]. split; [by_eval|].
  split; [by_eval|]. split; [by_eval|].
  apply (pushBlock_writePosition_mod (after calls_w2_r6) ramp4 4 1%float
           (after calls_w6_wrapped)); by_eval.
Defined.

Lemma maxResamplingFactor_exec_witness :
  exec (after calls_w4) (CallSetMaxResamplingFactor 0.00001%float)
    = Some (after calls_low_max) /\
  maxResamplingFactor (after calls_low_max) = 0.00001%float.
Proof.
  split; [by_eval|].
  apply (maxResamplingFactor_exec (after calls_w4)
           (CallSetMaxResamplingFactor 0.00001%float) (after calls_low_max)).
  by_eval.
Defined.

Lemma pushBlock_overruns_reader_witness :
  wf_buffer (buffer (after calls_w2_r6)) /\
  cursors_in_range (after calls_w2_r6) /\
  call_pre (after calls_w2_r6) (CallPushBlock ramp5 5 1%float) /\
  capacity (after calls_w2_r6)
    < delayOf (writePosition (after calls_w2_r6))
              (readPosition (after calls_w2_r6))
              (capacity (after calls_w2_r6)) + 5 /\
  exists s',
    pushBlock (after calls_w2_r6) ramp5 5 1%float = Some s' /\
    getActualSampleDelay s' = 1 /\
    ab_channels (buffer s') = [[3; 4; 1; 2; 3; 4; 5; 2]%float].
Proof.
  split; [by_eval|]. split; [by_eval|]. split; [by_eval|]. split; [by_eval|].
  destruct (pushBlock_overruns_reader (after calls_w2_r6) ramp5 5 1%float)
    as (s' & Hpush & Hd & _); try by_eval.
  exists s'. split; [exact Hpush|]. split; [exact Hd|].
  vm_compute in Hpush. injection Hpush as <-. reflexivity.
Defined.

Lemma pullBlock_underrun_witness :
  call_pre (after calls_w4_r4) (CallPullBlock silence4 4 0) /\
  cursors_in_range (after calls_w4_r4) /\
  getActualSampleDelay (after calls_w4_r4) = 0 /\
  exists s' out',
    pullBlock (after calls_w4_r4) silence4 4 0 = Some (s', out') /\
    readPosition s' = 7 /\
    getActualSampleDelay s' = 0 - 3 + 8.
Proof.
  split; [by_eval|]. split; [by_eval|]. split; [by_eval|].
  destruct (pullBlock_underrun (after calls_w4_r4) silence4 4 0)
    as (s' & out' & used & Hpull & _); try by_eval.
  exists s', out'. split; [exact Hpull|].
  vm_compute in Hpull. injection Hpull as <- _. split; reflexivity.
Defined.

Lemma pullFactor_cases_witness :
  pullFactor (after calls_w4) 4 0 = rawFactor (after calls_w4) 4 0 /\
  pullFactor (after calls_w4_r4) 4 (-640) = maxResamplingFactor (after calls_w4_r4) /\
  pullFactor (after calls_w4_r4) 4 64 = minFactor.
Proof.
  destruct (pullFactor_cases (after calls_w4) 4 0) as (Hin & _ & _).
  destruct (pullFactor_cases (after calls_w4_r4) 4 (-640)) as (_ & _ & Hhi).
  destruct (pullFactor_cases (after calls_w4_r4) 4 64) as (_ & Hlo & _).
  split; [apply Hin; by_eval|]. split; [apply Hhi; by_eval | apply Hlo; by_eval].
Defined.

(** *** The write cursor at the end of the ring *)

Lemma reachable_w8 : reachable (after calls_w8).
Proof. apply reachable_after; [by_eval | eexists; vm_compute; reflexivity]. Qed.

(** C3 (the code differs): after two pushes of four samples into a ring of
    eight the write cursor is 8 and the read cursor 0.  [pullBlock] then
    takes [currentDelay = 8 - 0 = 8], not [(8 - 0) mod 8 = 0]: for four
    samples at target delay 0 it runs the resampler with
    [1 + (8 - 4 - 0) / 32 = 1.125], where the formula on
    [(writePos - readPos) mod N] gives [1 + (0 - 4 - 0) / 32 = 0.875]. *)
Theorem pullBlock_factor_at_ring_end :
  reachable (after calls_w8) /\
  capacity (after calls_w8) = 8 /\
  writePosition (after calls_w8) = 8 /\
  readPosition (after calls_w8) = 0 /\
  call_pre (after calls_w8) (CallPullBlock silence4 4 0) /\
  (exists s' out',
     pullBlock (after calls_w8) silence4 4 0 = Some (s', out') /\
     runs_with (after calls_w8) silence4 4 1.125%float s' out') /\
  currentDelay (after calls_w8) = 8 /\
  (writePosition (after calls_w8) - readPosition (after calls_w8))
    mod capacity (after calls_w8) = 0 /\
  clampFactor (maxResamplingFactor (after calls_w8))
    (1 + F64.of_int
           (((writePosition (after calls_w8) - readPosition (after calls_w8))
             mod capacity (after calls_w8) - 4) - 0)
         / (F64.of_int 4 * 8))%float
  = 0.875%float.
Proof.
  split; [exact reachable_w8|]. do 3 (split; [by_eval|]).
  assert (Hpre : call_pre (after calls_w8) (CallPullBlock silence4 4 0))
    by by_eval.
  split; [exact Hpre|]. split; [|by_eval].
  destruct (call_pre_pull_runs _ _ _ _ Hpre) as (Hcap & Hb & Hrs).
  destruct (pullBlock_runs (after calls_w8) silence4 4 0 Hcap Hb Hrs)
    as (s' & out' & used & Hpull & Hruns & _).
  exists s', out'. split; [exact Hpull|].
  replace 1.125%float with (pullFactor (after calls_w8) 4 0)
    by (vm_compute; reflexivity).
  exact Hruns.
Qed.

(** C5 (the code differs): with the write cursor at 8 in a ring of eight,
    [setNumSamplesDelay (0)] computes [assumedRead = 8], which is not
    negative and is stored as it is: the read cursor is 8, not
    [(8 - 0) mod 8 = 0].  [getActualSampleDelay] returns 0. *)
Theorem setNumSamplesDelay_at_ring_end :
  reachable (after calls_w8) /\
  capacity (after calls_w8) = 8 /\
  writePosition (after calls_w8) = 8 /\
  call_pre (after calls_w8) (CallSetNumSamplesDelay 0) /\
  readPosition (setNumSamplesDelay (after calls_w8) 0) = 8 /\
  (writePosition (after calls_w8) - 0) mod capacity (after calls_w8) = 0 /\
  getActualSampleDelay (setNumSamplesDelay (after calls_w8) 0) = 0.
Proof.
  split; [exact reachable_w8|]. by_eval.
Qed.

Example zget_ex : zget [10; 20; 30] 1 = Some 20 /\ zget [10; 20; 30] (-1) = None.
Proof. split; reflexivity. Qed.

Example of_int_ex : F64.of_int (-3) = (-3)%float /\ F64.of_int 256 = 256%float.
Proof. split; vm_compute; reflexivity. Qed.
